(** * Streaming-response observer of the Anthropic instrumentation

    A shallow embedding of
    [opentelemetry/instrumentation/anthropic/streaming.py]: the accumulator
    [complete_response], the item classifier [_process_response_item], the
    metrics emitter [_set_token_usage], the span finalizer [_set_completions]
    and the two observers [build_from_streaming_response] and
    [abuild_from_streaming_response], the latter two as explicit generator
    state machines driven by the consumer. *)

From Stdlib Require Import ZArith Lia.
From stdpp Require Import base decidable option list strings.

Open Scope Z_scope.

(** ** Python values, exceptions and dictionaries *)

(** The values that flow through the observer: [None], integers and
    strings.  Token counts are integers, finish reasons and model names are
    strings, and every optional field may be [None]. *)
Inductive pyval :=
| VNone
| VInt (z : Z)
| VStr (s : string).

#[global] Instance pyval_eq_dec : EqDecision pyval.
Proof. solve_decision. Defined.

(** An exception object: its class name, and whether the class derives from
    [Exception] (so that [except Exception] catches it) or only from
    [BaseException] ([GeneratorExit], [KeyboardInterrupt]). *)
Record exn := Exn { exn_class : string; exn_is_Exception : bool }.

#[global] Instance exn_eq_dec : EqDecision exn.
Proof. solve_decision. Defined.

Definition IndexError : exn := Exn "IndexError" true.
Definition TypeError : exn := Exn "TypeError" true.
Definition UnboundLocalError : exn := Exn "UnboundLocalError" true.
Definition GeneratorExit : exn := Exn "GeneratorExit" false.

(** Truthiness of a value, as [if v:] tests it. *)
Definition truthy (v : pyval) : bool :=
  match v with
  | VNone => false
  | VInt z => negb (z =? 0)
  | VStr s => negb (String.eqb s "")
  end.

(** [a + b]: defined on two integers and on two strings, [TypeError]
    otherwise. *)
Definition py_add (a b : pyval) : exn + pyval :=
  match a, b with
  | VInt x, VInt y => inr (VInt (x + y))
  | VStr x, VStr y => inr (VStr (x +:+ y))
  | _, _ => inl TypeError
  end.

(** [type(v) is int and v >= 0] *)
Definition is_nonneg_int (v : pyval) : bool :=
  match v with
  | VInt z => 0 <=? z
  | _ => false
  end.

(** A Python [dict]: insertion ordered, one binding per key. *)
Definition dict (K V : Type) : Type := list (K * V).

Section Dict.
Context {K V : Type} `{EqDecision K}.

(** [d.get(k)] as an option, [None] when the key is absent. *)
Fixpoint dict_lookup (d : dict K V) (k : K) : option V :=
  match d with
  | [] => None
  | (k', v) :: d' => if decide (k' = k) then Some v else dict_lookup d' k
  end.

(** [d.get(k, dflt)] *)
Definition dict_get (d : dict K V) (k : K) (dflt : V) : V :=
  default dflt (dict_lookup d k).

(** [d[k] = v]: overwrite in place, or append a new binding. *)
Fixpoint dict_set (d : dict K V) (k : K) (v : V) : dict K V :=
  match d with
  | [] => [(k, v)]
  | (k', v') :: d' =>
      if decide (k' = k) then (k', v) :: d' else (k', v') :: dict_set d' k v
  end.
End Dict.

(** [l[i]] on a list with Python's indexing: the position read, counting
    from the end for a negative index, or [None] where Python raises
    [IndexError]. *)
Definition py_index {A} (l : list A) (i : Z) : option nat :=
  let n := Z.of_nat (length l) in
  if (0 <=? i) && (i <? n) then Some (Z.to_nat i)
  else if (- n <=? i) && (i <? 0) then Some (Z.to_nat (n + i))
  else None.

(** ** Data model *)

(** One entry of [complete_response["events"]]: created as
    [{"index": index, "text": ""}]; the key ["finish_reason"] is absent
    ([None] here) until a [message_delta] item sets it. *)
Record event := Event {
  ev_index : Z;
  ev_text : string;
  ev_finish_reason : option pyval;
}.

#[global] Instance event_eq_dec : EqDecision event.
Proof. solve_decision. Defined.

(** [event.get("finish_reason")] *)
Definition event_get_finish_reason (ev : event) : pyval :=
  default VNone (ev_finish_reason ev).

(** The accumulator.  [cr_usage] is [None] when the dict has no ["usage"]
    key, which [_process_response_item] tests for. *)
Record complete_response := CompleteResponse {
  cr_events : list event;
  cr_model : string;
  cr_usage : option (dict string pyval);
}.

(** [{"events": [], "model": "", "usage": {}}] *)
Definition initial_response : complete_response :=
  CompleteResponse [] "" (Some []).

(** [item.delta] of a [content_block_delta] item. *)
Inductive delta :=
| text_delta (text : string)
| other_delta (type : string).

(** A stream item, by its [type]; [other_item] stands for every type the
    classifier has no branch for.  The [usage] fields hold the usage object
    of the item as [dict(...)] reads it.  On a [message_delta] the usage
    may be missing ([None]); a usage object that is there is truthy,
    whatever its fields. *)
Inductive item :=
| message_start (model : string) (usage : dict string pyval)
| content_block_start (index : Z)
| content_block_delta (index : Z) (d : delta)
| message_delta (stop_reason : pyval) (usage : option (dict string pyval))
| other_item (type : string).

#[global] Instance delta_eq_dec : EqDecision delta.
Proof. solve_decision. Defined.
#[global] Instance item_eq_dec : EqDecision item.
Proof. solve_decision. Defined.

(** ** Telemetry: attribute names, effects and collaborators *)

(** The constants of [SpanAttributes] are declared in
    [opentelemetry.semconv_ai], outside this module; they are kept symbolic.
    [LLM_COMPLETIONS_field index field] is the formatted name
    [f"{SpanAttributes.LLM_COMPLETIONS}.{index}.{field}"], and [Key s] is a
    name written as a string literal. *)
Module SpanAttributes.
Inductive name :=
| LLM_USAGE_PROMPT_TOKENS
| LLM_USAGE_COMPLETION_TOKENS
| LLM_USAGE_TOTAL_TOKENS
| LLM_RESPONSE_MODEL
| LLM_USAGE_CACHE_READ_INPUT_TOKENS
| LLM_USAGE_CACHE_CREATION_INPUT_TOKENS
| LLM_TOKEN_TYPE
| LLM_RESPONSE_FINISH_REASON
| LLM_COMPLETIONS_field (index : pyval) (field : string)
| Key (s : string).

#[global] Instance name_eq_dec : EqDecision name.
Proof. solve_decision. Defined.
End SpanAttributes.
Import SpanAttributes.

Abbreviation attributes := (dict SpanAttributes.name pyval).

Inductive histogram_id := TokenHistogram | DurationHistogram.
Inductive counter_id := ChoiceCounter | ExceptionCounter.
Inductive status_code := StatusOK | StatusERROR.

(** What the observer does to the outside world, in program order. *)
Inductive effect :=
| SetSpanAttribute (name : SpanAttributes.name) (value : pyval)
    (* set_span_attribute(span, name, value) *)
| SpanAddEvent (name : string) (attrs : attributes)
    (* span.add_event(name, attributes=attrs) *)
| SpanSetStatus (code : status_code)   (* span.set_status(Status(code)) *)
| SpanEnd                              (* span.end() *)
| HistogramRecord (h : histogram_id) (value : pyval) (attrs : attributes)
| CounterAdd (c : counter_id) (amount : Z) (attrs : attributes)
| LoggerWarning (msg : string) (e : exn)
| DontThrowLogged (func : string) (e : exn).

#[global] Instance histogram_id_eq_dec : EqDecision histogram_id.
Proof. solve_decision. Defined.
#[global] Instance counter_id_eq_dec : EqDecision counter_id.
Proof. solve_decision. Defined.
#[global] Instance status_code_eq_dec : EqDecision status_code.
Proof. solve_decision. Defined.
#[global] Instance effect_eq_dec : EqDecision effect.
Proof. solve_decision. Defined.

(** A computation that performs effects and then returns or raises: the
    effects performed before a raise stay performed. *)
Definition M (A : Type) : Type := list effect * (exn + A).

Definition ret {A} (a : A) : M A := ([], inr a).
Definition raise {A} (e : exn) : M A := ([], inl e).
Definition lift {A} (r : exn + A) : M A := ([], r).

Definition bind {A B} (k : A → M B) (m : M A) : M B :=
  match m with
  | (t, inl e) => (t, inl e)
  | (t, inr a) => let '(t', r) := k a in (t ++ t', r)
  end.

#[global] Instance M_ret : MRet M := @ret.
#[global] Instance M_bind : MBind M := @bind.

(** A call to a collaborator: it raises, or the effect is performed. *)
Definition perform (eff : effect) (r : option exn) : M unit :=
  match r with
  | Some e => raise e
  | None => ([eff], inr tt)
  end.

(** [try: body except Exception as e: handler e] *)
Definition try_except {A} (body : M A) (handler : exn → M A) : M A :=
  match body with
  | (t, inl e) =>
      if exn_is_Exception e
      then let '(t', r) := handler e in (t ++ t', r)
      else (t, inl e)
  | (t, inr a) => (t, inr a)
  end.

(** [for x in l: body x] *)
Fixpoint for_each {A} (l : list A) (body : A → M unit) : M unit :=
  match l with
  | [] => ret tt
  | x :: l' => body x;; for_each l' body
  end.

(** The collaborators of one stream and the configuration read at
    finalization: the span, the four instruments, the token counter of the
    client and the helpers imported from [utils] and [config], none of
    which is defined in this module.  A collaborator that returns a value
    gives [inl e] when it raises; one called for its effect gives [Some e]
    when it raises.  An instrument that is not configured is [None]. *)
Record collaborators := Collaborators {
  error_metrics_attributes : exn → exn + attributes;
  shared_metrics_attributes : complete_response → exn + attributes;
  count_prompt_tokens_from_request : exn + pyval;
  count_tokens : string → exn + pyval;      (* instance.count_tokens *)
  should_send_prompts : exn + bool;
  set_span_attribute : SpanAttributes.name → pyval → option exn;
  span_is_recording : exn + bool;
  span_add_event : string → attributes → option exn;
  span_set_status : status_code → option exn;
  span_end : option exn;
  token_histogram : option (pyval → attributes → option exn);
  choice_counter : option (Z → attributes → option exn);
  duration_histogram : option (pyval → attributes → option exn);
  exception_counter : option (Z → attributes → option exn);
  duration : pyval;                         (* time.time() - start_time *)
  Config_enrich_token_usage : bool;
  Config_use_legacy_attributes : bool;
}.

(** Modelled from the spec: [dont_throw] is declared in [utils], which is
    not part of the sources at hand.  It is the exception-suppressing
    decorator of the telemetry paths: it runs the call of the decorated
    function and converts a failure of that call into a logged outcome,
    returning [None].  The call of a generator function only creates the
    generator and runs none of its body. *)
Definition dont_throw {A} (func : string) (call : M A) : M (option A) :=
  try_except (a ← call; ret (Some a))
             (λ e, perform (DontThrowLogged func e) None;; ret None).

(** ** Item classifier *)

Definition set_finish_reason (stop_reason : pyval) (ev : event) : event :=
  Event (ev_index ev) (ev_text ev) (Some stop_reason).

Definition append_text (text : string) (ev : event) : event :=
  Event (ev_index ev) (ev_text ev +:+ text) (ev_finish_reason ev).

(** The body of [_process_response_item]: the accumulator after the call,
    and the exception the body raised, if any.  Mutations made before a
    raise stay made. *)
Definition process_response_item_body (it : item) (cr : complete_response)
  : complete_response * option exn :=
  match it with
  | message_start model usage =>
      (CompleteResponse (cr_events cr) model (Some usage), None)
  | content_block_start index =>
      if Z.of_nat (length (cr_events cr)) <=? index
      then (CompleteResponse (cr_events cr ++ [Event index "" None])
                             (cr_model cr) (cr_usage cr), None)
      else (cr, None)
  | content_block_delta index (text_delta text) =>
      match py_index (cr_events cr) index with
      | Some i =>
          (CompleteResponse (alter (append_text text) i (cr_events cr))
                            (cr_model cr) (cr_usage cr), None)
      | None => (cr, Some IndexError)
      end
  | content_block_delta _ (other_delta _) => (cr, None)
  | message_delta stop_reason item_usage =>
      let events' := set_finish_reason stop_reason <$> cr_events cr in
      match item_usage with
      | Some u =>
          match cr_usage cr with
          | Some existing =>
              let item_output_tokens := dict_get u "output_tokens" (VInt 0) in
              let existing_output_tokens :=
                dict_get existing "output_tokens" (VInt 0) in
              match py_add item_output_tokens existing_output_tokens with
              | inr total =>
                  (CompleteResponse events' (cr_model cr)
                     (Some (dict_set existing "output_tokens" total)), None)
              | inl e => (CompleteResponse events' (cr_model cr) (cr_usage cr),
                          Some e)
              end
          | None => (CompleteResponse events' (cr_model cr) (Some u), None)
          end
      | None => (CompleteResponse events' (cr_model cr) (cr_usage cr), None)
      end
  | other_item _ => (cr, None)
  end.

(** [_process_response_item], under its [dont_throw] decorator: the
    updated accumulator and the effects of the decorator. *)
Definition _process_response_item (it : item) (cr : complete_response)
  : complete_response * list effect :=
  let '(cr', r) := process_response_item_body it cr in
  (cr', fst (dont_throw "_process_response_item"
               (match r with Some e => raise e | None => ret tt end))).

(** ** Metrics emitter and span finalizer *)

Definition call_set_span_attribute (c : collaborators)
    (name : SpanAttributes.name) (value : pyval) : M unit :=
  perform (SetSpanAttribute name value) (set_span_attribute c name value).

(** [logger.warning(msg, e)]: logging does not raise. *)
Definition logger_warning (msg : string) (e : exn) : M unit :=
  perform (LoggerWarning msg e) None.

Definition _set_token_usage (c : collaborators) (cr : complete_response)
    (prompt_tokens completion_tokens : pyval)
    (metric_attributes : attributes)
    (token_histogram : option (pyval → attributes → option exn))
    (choice_counter : option (Z → attributes → option exn)) : M unit :=
  let usage := default [] (cr_usage cr) in
  let cache_read_tokens := dict_get usage "cache_read_input_tokens" (VInt 0) in
  let cache_creation_tokens :=
    dict_get usage "cache_creation_input_tokens" (VInt 0) in
  s ← lift (py_add prompt_tokens cache_read_tokens);
  input_tokens ← lift (py_add s cache_creation_tokens);
  total_tokens ← lift (py_add input_tokens completion_tokens);
  call_set_span_attribute c LLM_USAGE_PROMPT_TOKENS input_tokens;;
  call_set_span_attribute c LLM_USAGE_COMPLETION_TOKENS completion_tokens;;
  call_set_span_attribute c LLM_USAGE_TOTAL_TOKENS total_tokens;;
  call_set_span_attribute c LLM_RESPONSE_MODEL (VStr (cr_model cr));;
  call_set_span_attribute c LLM_USAGE_CACHE_READ_INPUT_TOKENS
    cache_read_tokens;;
  call_set_span_attribute c LLM_USAGE_CACHE_CREATION_INPUT_TOKENS
    cache_creation_tokens;;
  match token_histogram with
  | Some record =>
      if is_nonneg_int input_tokens then
        let attrs := dict_set metric_attributes LLM_TOKEN_TYPE (VStr "input") in
        perform (HistogramRecord TokenHistogram input_tokens attrs)
                (record input_tokens attrs)
      else ret tt
  | None => ret tt
  end;;
  match token_histogram with
  | Some record =>
      if is_nonneg_int completion_tokens then
        let attrs := dict_set metric_attributes LLM_TOKEN_TYPE (VStr "output") in
        perform (HistogramRecord TokenHistogram completion_tokens attrs)
                (record completion_tokens attrs)
      else ret tt
  | None => ret tt
  end;;
  match choice_counter with
  | Some add =>
      for_each (cr_events cr) (λ ev,
        let attrs := dict_set metric_attributes LLM_RESPONSE_FINISH_REASON
                       (event_get_finish_reason ev) in
        perform (CounterAdd ChoiceCounter 1 attrs) (add 1 attrs))
  | None => ret tt
  end.

Definition _emit_completion_event (c : collaborators)
    (content : pyval) (index : Z) (finish_reason : pyval) : M unit :=
  let attrs : attributes :=
    [(Key "messaging.content", content); (Key "messaging.index", VInt index)] in
  let attrs :=
    if truthy finish_reason
    then dict_set attrs (Key "llm.response.finish_reason") finish_reason
    else attrs in
  perform (SpanAddEvent "completion" attrs)
          (span_add_event c "completion" attrs).

Definition _set_completions (c : collaborators) (events : list event)
  : M unit :=
  recording ← lift (span_is_recording c);
  if negb recording || bool_decide (events = []) then ret tt
  else if Config_use_legacy_attributes c then
    try_except
      (for_each events (λ ev,
         let index := VInt (ev_index ev) in
         call_set_span_attribute c (LLM_COMPLETIONS_field index "finish_reason")
           (event_get_finish_reason ev);;
         call_set_span_attribute c (LLM_COMPLETIONS_field index "content")
           (VStr (ev_text ev))))
      (logger_warning "Failed to set completion attributes, error: %s")
  else
    try_except
      (for_each (imap (λ i ev, (i, ev)) events) (λ '(i, ev),
         _emit_completion_event c (VStr (ev_text ev)) (Z.of_nat i)
           (event_get_finish_reason ev)))
      (logger_warning "Failed to emit completion event, error: %s").

(** ** Finalization *)

(** Reading a local variable: [UnboundLocalError] when it was never
    assigned. *)
Definition read_local (v : option pyval) : M pyval :=
  match v with
  | Some x => ret x
  | None => raise UnboundLocalError
  end.

(** The usage dict as [if usage := complete_response.get("usage")] sees it:
    [Some] when the key is present and the dict is not empty. *)
Definition truthy_usage (cr : complete_response) : option (dict string pyval) :=
  match cr_usage cr with
  | Some [] | None => None
  | Some u => Some u
  end.

(** The [try] block of token enrichment, lines 175-207 of the synchronous
    observer and 250-281 of the asynchronous one.  The two differ in one
    statement: the synchronous observer assigns [completion_tokens = -1]
    at the top of the block (line 176), the asynchronous one has no such
    assignment.  [completion_tokens0] is the local variable as it stands
    once the block has started. *)
Definition enrich_token_usage (completion_tokens0 : option pyval)
    (c : collaborators) (cr : complete_response)
    (metric_attributes : attributes) : M unit :=
  try_except
    (prompt_tokens ←
       match truthy_usage cr with
       | Some usage => ret (dict_get usage "input_tokens" (VInt 0))
       | None => lift (count_prompt_tokens_from_request c)
       end;
     completion_tokens ←
       match truthy_usage cr with
       | Some usage => ret (Some (dict_get usage "output_tokens" (VInt 0)))
       | None =>
           if bool_decide (cr_events cr = []) then ret completion_tokens0
           else
             let model_name := cr_model cr in
             let completion_content :=
               foldl (λ acc ev, acc +:+ ev_text ev) "" (cr_events cr) in
             if truthy (VStr model_name) then
               n ← lift (count_tokens c completion_content); ret (Some n)
             else ret completion_tokens0
       end;
     completion_tokens ← read_local completion_tokens;
     _set_token_usage c cr prompt_tokens completion_tokens
       metric_attributes (token_histogram c) (choice_counter c))
    (logger_warning "Failed to set token usage, error: %s").

(** [duration_histogram.record(duration, attributes=metric_attributes)],
    when a duration histogram is configured (lines 166-171). *)
Definition record_duration (c : collaborators)
    (metric_attributes : attributes) : M unit :=
  match duration_histogram c with
  | Some record =>
      perform (HistogramRecord DurationHistogram (duration c) metric_attributes)
              (record (duration c) metric_attributes)
  | None => ret tt
  end.

(** The statements after the loop, lines 164-213 of the synchronous
    observer and 239-287 of the asynchronous one. *)
Definition finalize (completion_tokens0 : option pyval)
    (c : collaborators) (cr : complete_response) : M unit :=
  metric_attributes ← lift (shared_metrics_attributes c cr);
  record_duration c metric_attributes;;
  (if Config_enrich_token_usage c
   then enrich_token_usage completion_tokens0 c cr metric_attributes
   else ret tt);;
  send ← lift (should_send_prompts c);
  (if send : bool then _set_completions c (cr_events cr) else ret tt);;
  perform (SpanSetStatus StatusOK) (span_set_status c StatusOK);;
  perform SpanEnd (span_end c).

(** ** The observers as generators *)

(** The source iterator [response]: the items it still has to give, and how
    it ends after them, by exhaustion ([None]: the [for] statement takes
    the [StopIteration] of the source, the [async for] statement its
    [StopAsyncIteration], as the end of the loop) or by raising an exception
    that the loop statement lets through ([Some]). *)
Record source := Source { src_items : list item; src_end : option exn }.

(** A generator object of an observer: not started, suspended at
    [yield item] with the rest of the source and the accumulator, or
    finished (returned, raised or closed). *)
Inductive generator :=
| Created (response : source)
| Suspended (it : item) (response : source) (cr : complete_response)
| Finished.

(** What the consumer does to the generator: [next(g)], [g.throw(e)],
    [g.close()] (and their asynchronous counterparts). *)
Inductive command := Next | Throw (e : exn) | Close.

(** What the consumer gets back: an item, the end of the generator
    ([StopIteration], [StopAsyncIteration] for the asynchronous observer),
    an exception, or the return of [close]. *)
Inductive signal :=
| Yield (it : item)
| StopIteration
| Raised (e : exn)
| Closed.

#[global] Instance source_eq_dec : EqDecision source.
Proof. solve_decision. Defined.
#[global] Instance signal_eq_dec : EqDecision signal.
Proof. solve_decision. Defined.

(** The [except Exception as e] handler around [yield item], lines 157-161:
    it never returns normally. *)
Definition on_exception (c : collaborators) (e : exn) : M Empty_set :=
  attrs ← lift (error_metrics_attributes c e);
  match exception_counter c with
  | Some add => perform (CounterAdd ExceptionCounter 1 attrs) (add 1 attrs)
  | None => ret tt
  end;;
  raise e.

(** The exception that leaves a computation which cannot return. *)
Definition leaving (m : M Empty_set) : list effect * exn :=
  match m with
  | (t, inl e) => (t, e)
  | (_, inr x) => match x with end
  end.

(** What the caller of a generator gets of an exception that leaves the
    body of the generator: a [StopIteration] does not pass for the end of
    the generator, it is replaced by a [RuntimeError] ("generator raised
    StopIteration", PEP 479). *)
Definition RuntimeError : exn := Exn "RuntimeError" true.

Definition escaping (e : exn) : exn :=
  if bool_decide (exn_class e = "StopIteration") then RuntimeError else e.

(** The head of the [for] loop: pull the next item from the source.  An
    item is yielded; exhaustion runs the statements after the loop, and an
    exception of theirs leaves the body; an exception of the source leaves
    the generator as it is, this statement being outside every [try]. *)
Definition pull (completion_tokens0 : option pyval) (c : collaborators)
    (response : source) (cr : complete_response)
  : generator * signal * list effect :=
  match src_items response with
  | it :: rest => (Suspended it (Source rest (src_end response)) cr, Yield it, [])
  | [] =>
      match src_end response with
      | Some e => (Finished, Raised e, [])
      | None =>
          let '(t, r) := finalize completion_tokens0 c cr in
          (Finished,
           match r with inl e => Raised (escaping e) | inr _ => StopIteration end,
           t)
      end
  end.

(** One resumption of the generator.  An exception thrown into the
    generator is raised at the point where the generator stands: at
    [yield item], inside the [try], when it is suspended; at the top of the
    body, which then runs no statement, when it has not started; in the
    caller, the body being over, when it is finished. *)
Definition resume (completion_tokens0 : option pyval) (c : collaborators)
    (g : generator) (cmd : command) : generator * signal * list effect :=
  match g, cmd with
  | Created response, Next => pull completion_tokens0 c response initial_response
  | Suspended it response cr, Next =>
      let '(cr', t) := _process_response_item it cr in
      let '(g', s, t') := pull completion_tokens0 c response cr' in
      (g', s, t ++ t')
  | Suspended it response cr, Throw e =>
      let '(t, e') := leaving (try_except (raise e) (on_exception c)) in
      (Finished, Raised (escaping e'), t)
  | Suspended it response cr, Close =>
      let '(t, e') := leaving (try_except (raise GeneratorExit) (on_exception c)) in
      (Finished,
       (if decide (e' = GeneratorExit) then Closed else Raised (escaping e')), t)
  | Created _, Throw e => (Finished, Raised (escaping e), [])
  | Finished, Throw e => (Finished, Raised e, [])
  | Created _, Close | Finished, Close => (Finished, Closed, [])
  | Finished, Next => (Finished, StopIteration, [])
  end.

(** The call of either observer.  Both are generator functions under the
    [dont_throw] decorator: the call the decorator guards creates the
    generator object and runs none of the body, so the decorator hands the
    generator over and what the body raises reaches whoever resumes it. *)
Definition build_from_streaming_response (response : source) : generator :=
  Created response.
Definition abuild_from_streaming_response (response : source) : generator :=
  Created response.

(** Resuming the synchronous observer: [completion_tokens] is bound to
    [-1] when token enrichment starts. *)
Definition build_resume : collaborators → generator → command →
    generator * signal * list effect :=
  resume (Some (VInt (-1))).

(** Resuming the asynchronous observer: [completion_tokens] is unbound when
    token enrichment starts. *)
Definition abuild_resume : collaborators → generator → command →
    generator * signal * list effect :=
  resume None.

(** ** Consumers *)

(** What a consumer saw of one stream. *)
Record run := Run {
  received : list item;
  ending : option signal;    (* [None]: the consumer has not reached the end *)
  telemetry : list effect;
  final : generator;
}.

(** [for item in g: pass], at most [fuel] resumptions. *)
Fixpoint consume (step : generator → command → generator * signal * list effect)
    (fuel : nat) (g : generator) : run :=
  match fuel with
  | O => Run [] None [] g
  | S fuel' =>
      let '(g', s, t) := step g Next in
      match s with
      | Yield it =>
          let r := consume step fuel' g' in
          Run (it :: received r) (ending r) (t ++ telemetry r) (final r)
      | _ => Run [] (Some s) t g'
      end
  end.

(** A consumer that follows a script of commands: the signals it got, the
    effects performed and the generator it leaves. *)
Fixpoint drive (step : generator → command → generator * signal * list effect)
    (g : generator) (cmds : list command)
  : list signal * list effect * generator :=
  match cmds with
  | [] => ([], [], g)
  | cmd :: cmds' =>
      let '(g', s, t) := step g cmd in
      let '(ss, t', g'') := drive step g' cmds' in
      (s :: ss, t ++ t', g'')
  end.

(** The effects a scripted consumer causes. *)
Definition performed
    (step : generator → command → generator * signal * list effect)
    (g : generator) (cmds : list command) : list effect :=
  snd (fst (drive step g cmds)).

(** ** Running an observer to the end of its source *)

(** The accumulator after a run of items, and what the decorator of
    [_process_response_item] logged on the way. *)
Definition process_all (items : list item) (cr : complete_response)
  : complete_response :=
  foldl (λ cr it, (_process_response_item it cr).1) cr items.

Fixpoint process_log (items : list item) (cr : complete_response)
  : list effect :=
  match items with
  | [] => []
  | it :: items' =>
      (_process_response_item it cr).2
      ++ process_log items' (_process_response_item it cr).1
  end.

(** How the stream ends once the source has no item left. *)
Definition conclusion (completion_tokens0 : option pyval) (c : collaborators)
    (src_end : option exn) (cr : complete_response) : signal * list effect :=
  match src_end with
  | Some e => (Raised e, [])
  | None =>
      let '(t, r) := finalize completion_tokens0 c cr in
      (match r with inl e => Raised (escaping e) | inr _ => StopIteration end, t)
  end.

(** ** Properties of accumulators and effects *)

(** An effect of the [dont_throw] decorator. *)
Definition decorator_log (eff : effect) : Prop :=
  ∃ func e, eff = DontThrowLogged func e.

(** [events[i].index == i] for every slot. *)
Definition events_contiguous (cr : complete_response) : Prop :=
  ∀ (i : nat) ev, cr_events cr !! i = Some ev → ev_index ev = Z.of_nat i.

(** Every [content_block_start] of the sequence arrives with an index that
    is at most the number of slots at that moment. *)
Fixpoint gapless (items : list item) (cr : complete_response) : Prop :=
  match items with
  | [] => True
  | it :: items' =>
      match it with
      | content_block_start index => index ≤ Z.of_nat (length (cr_events cr))
      | _ => True
      end
      ∧ gapless items' (_process_response_item it cr).1
  end.

(** The model of the last [message_start] item of a sequence, if the
    sequence has one. *)
Fixpoint last_model (items : list item) : option string :=
  match items with
  | [] => None
  | it :: items' =>
      match last_model items' with
      | Some model => Some model
      | None =>
          match it with
          | message_start model _ => Some model
          | _ => None
          end
      end
  end.

(** ** Sample collaborators and streams *)

(** Collaborators that accept every call: every instrument configured,
    token enrichment and legacy attributes switched on. *)
Definition quiet : collaborators := {|
  error_metrics_attributes := λ e, inr [(Key "error.type", VStr (exn_class e))];
  shared_metrics_attributes := λ cr, inr [(LLM_RESPONSE_MODEL, VStr (cr_model cr))];
  count_prompt_tokens_from_request := inr (VInt 10);
  count_tokens := λ s, inr (VInt (Z.of_nat (String.length s)));
  should_send_prompts := inr true;
  set_span_attribute := λ _ _, None;
  span_is_recording := inr true;
  span_add_event := λ _ _, None;
  span_set_status := λ _, None;
  span_end := None;
  token_histogram := Some (λ _ _, None);
  choice_counter := Some (λ _ _, None);
  duration_histogram := Some (λ _ _, None);
  exception_counter := Some (λ _ _, None);
  duration := VInt 3;
  Config_enrich_token_usage := true;
  Config_use_legacy_attributes := true;
|}.

(** A short well-formed stream. *)
Definition hello_stream : list item :=
  [ message_start "claude" [("input_tokens", VInt 4); ("output_tokens", VInt 1)];
    content_block_start 0;
    content_block_delta 0 (text_delta "Hel");
    content_block_delta 0 (text_delta "lo");
    message_delta (VStr "end_turn") (Some [("output_tokens", VInt 7)]);
    other_item "message_stop" ].

(** The same collaborators with another duration histogram. *)
Definition with_duration_histogram
    (h : option (pyval → attributes → option exn)) (c : collaborators)
  : collaborators := {|
  error_metrics_attributes := error_metrics_attributes c;
  shared_metrics_attributes := shared_metrics_attributes c;
  count_prompt_tokens_from_request := count_prompt_tokens_from_request c;
  count_tokens := count_tokens c;
  should_send_prompts := should_send_prompts c;
  set_span_attribute := set_span_attribute c;
  span_is_recording := span_is_recording c;
  span_add_event := span_add_event c;
  span_set_status := span_set_status c;
  span_end := span_end c;
  token_histogram := token_histogram c;
  choice_counter := choice_counter c;
  duration_histogram := h;
  exception_counter := exception_counter c;
  duration := duration c;
  Config_enrich_token_usage := Config_enrich_token_usage c;
  Config_use_legacy_attributes := Config_use_legacy_attributes c;
|}.

(** A duration histogram that rejects every observation. *)
Definition rejecting_duration_histogram : collaborators :=
  with_duration_histogram (Some (λ _ _, Some (Exn "ValueError" true))) quiet.

(** The same collaborators with token enrichment switched off. *)
Definition without_enrichment (c : collaborators) : collaborators := {|
  error_metrics_attributes := error_metrics_attributes c;
  shared_metrics_attributes := shared_metrics_attributes c;
  count_prompt_tokens_from_request := count_prompt_tokens_from_request c;
  count_tokens := count_tokens c;
  should_send_prompts := should_send_prompts c;
  set_span_attribute := set_span_attribute c;
  span_is_recording := span_is_recording c;
  span_add_event := span_add_event c;
  span_set_status := span_set_status c;
  span_end := span_end c;
  token_histogram := token_histogram c;
  choice_counter := choice_counter c;
  duration_histogram := duration_histogram c;
  exception_counter := exception_counter c;
  duration := duration c;
  Config_enrich_token_usage := false;
  Config_use_legacy_attributes := Config_use_legacy_attributes c;
|}.

(** ** Classifying effects *)

(** How many effects of a trace satisfy [p]. *)
Definition count_effects (p : effect → bool) (t : list effect) : nat :=
  length (List.filter p t).

Definition is_set_status_ok (eff : effect) : bool :=
  match eff with SpanSetStatus StatusOK => true | _ => false end.

Definition is_set_status (eff : effect) : bool :=
  match eff with SpanSetStatus _ => true | _ => false end.

Definition is_span_end (eff : effect) : bool :=
  match eff with SpanEnd => true | _ => false end.

Definition is_duration_record (eff : effect) : bool :=
  match eff with HistogramRecord DurationHistogram _ _ => true | _ => false end.

(** The effects of the two guarded blocks of finalization and of the item
    classifier: everything but the duration record and the closing of the
    span. *)
Definition inner_effect (eff : effect) : Prop :=
  is_set_status eff = false ∧ is_span_end eff = false
  ∧ is_duration_record eff = false.

(** The six span attributes of token usage. *)
Definition token_usage_attribute (name : SpanAttributes.name) : bool :=
  match name with
  | LLM_USAGE_PROMPT_TOKENS | LLM_USAGE_COMPLETION_TOKENS
  | LLM_USAGE_TOTAL_TOKENS | LLM_RESPONSE_MODEL
  | LLM_USAGE_CACHE_READ_INPUT_TOKENS
  | LLM_USAGE_CACHE_CREATION_INPUT_TOKENS => true
  | _ => false
  end.

(** Token-usage telemetry: one of the six span attributes, an observation
    of the token histogram, an increment of the choice counter. *)
Definition token_usage_effect (eff : effect) : bool :=
  match eff with
  | SetSpanAttribute name _ => token_usage_attribute name
  | HistogramRecord TokenHistogram _ _ => true
  | CounterAdd ChoiceCounter _ _ => true
  | _ => false
  end.

Definition quiet_on_tokens (eff : effect) : Prop :=
  token_usage_effect eff = false.

(** ** Well-behaved collaborators *)

(** A computation raises only exceptions that satisfy [Q]. *)
Definition raises_only {A} (Q : exn → Prop) (m : M A) : Prop :=
  ∀ e, m.2 = inl e → Q e.

Definition is_Exception (e : exn) : Prop := exn_is_Exception e = true.

(** The collaborators that finalization calls outside every [try] block
    return normally, and those it calls inside one raise nothing but
    instances of [Exception]. *)
Record orderly (c : collaborators) : Prop := Orderly {
  shared_returns : ∀ cr, ∃ attrs, shared_metrics_attributes c cr = inr attrs;
  duration_accepts : ∀ record v attrs,
    duration_histogram c = Some record → record v attrs = None;
  send_returns : ∃ send, should_send_prompts c = inr send;
  recording_returns : ∃ b, span_is_recording c = inr b;
  status_accepts : span_set_status c StatusOK = None;
  end_accepts : span_end c = None;
  prompt_counter_raises : ∀ e,
    count_prompt_tokens_from_request c = inl e → is_Exception e;
  token_counter_raises : ∀ s e, count_tokens c s = inl e → is_Exception e;
  set_attribute_raises : ∀ n v e,
    set_span_attribute c n v = Some e → is_Exception e;
  add_event_raises : ∀ n a e, span_add_event c n a = Some e → is_Exception e;
  token_histogram_raises : ∀ record v a e,
    token_histogram c = Some record → record v a = Some e → is_Exception e;
  choice_counter_raises : ∀ add n a e,
    choice_counter c = Some add → add n a = Some e → is_Exception e;
}.

(** ** Further vocabulary for the classifier *)

(** The position that [events[index]] reads in a list of [n] slots, for an
    index that Python accepts. *)
Definition slot_position (n : nat) (index : Z) : nat :=
  Z.to_nat (if bool_decide (0 ≤ index) then index else Z.of_nat n + index).

(** The strings of a list, one after the other. *)
Definition join (texts : list string) : string :=
  foldr String.append "" texts.

(** The texts of the [text_delta] items of a sequence that are addressed to
    slot [i], in the order of the sequence. *)
Fixpoint texts_for (i : nat) (items : list item) : list string :=
  match items with
  | [] => []
  | content_block_delta index (text_delta text) :: items' =>
      if bool_decide (index = Z.of_nat i)
      then text :: texts_for i items' else texts_for i items'
  | _ :: items' => texts_for i items'
  end.

(** No [text_delta] item of the sequence counts its slot from the end. *)
Definition forward_indexed (items : list item) : Prop :=
  Forall (λ it, match it with
                | content_block_delta index (text_delta _) => 0 ≤ index
                | _ => True
                end) items.

(** [dict(item.usage).get("output_tokens", 0)], when it is an integer. *)
Definition output_tokens_of (u : dict string pyval) : option Z :=
  match dict_get u "output_tokens" (VInt 0) with
  | VInt d => Some d
  | _ => None
  end.

(** A run of [message_delta] items, each with a usage object. *)
Definition message_deltas (ds : list (pyval * dict string pyval)) : list item :=
  (λ d, message_delta d.1 (Some d.2)) <$> ds.

(** The sum of the integer [output_tokens] of a run of usage objects. *)
Definition sum_output_tokens (ds : list (pyval * dict string pyval)) : Z :=
  foldr (λ d acc, default 0 (output_tokens_of d.2) + acc) 0 ds.

(** ** Further vocabulary for telemetry *)

Definition is_token_record (eff : effect) : bool :=
  match eff with HistogramRecord TokenHistogram _ _ => true | _ => false end.

Definition is_choice_add (eff : effect) : bool :=
  match eff with CounterAdd ChoiceCounter _ _ => true | _ => false end.

Definition is_exception_add (eff : effect) : bool :=
  match eff with CounterAdd ExceptionCounter _ _ => true | _ => false end.

Definition is_warning (eff : effect) : bool :=
  match eff with LoggerWarning _ _ => true | _ => false end.

Definition is_set_attribute (eff : effect) : bool :=
  match eff with SetSpanAttribute _ _ => true | _ => false end.

Definition is_add_event (eff : effect) : bool :=
  match eff with SpanAddEvent _ _ => true | _ => false end.

(** Recorded completion content: an attribute under [LLM_COMPLETIONS] or a
    span event. *)
Definition completion_effect (eff : effect) : bool :=
  match eff with
  | SetSpanAttribute (LLM_COMPLETIONS_field _ _) _ => true
  | SpanAddEvent _ _ => true
  | _ => false
  end.

(** An observation as the token histogram may get one: a non-negative
    integer, labelled as input or as output. *)
Definition sound_token_record (eff : effect) : Prop :=
  match eff with
  | HistogramRecord h v attrs =>
      h = TokenHistogram
      ∧ is_nonneg_int v = true
      ∧ (dict_lookup attrs LLM_TOKEN_TYPE = Some (VStr "input")
         ∨ dict_lookup attrs LLM_TOKEN_TYPE = Some (VStr "output"))
  | _ => True
  end.

(** The increment of the choice counter for one slot. *)
Definition choice_add (metric_attributes : attributes) (ev : event) : effect :=
  CounterAdd ChoiceCounter 1
    (dict_set metric_attributes LLM_RESPONSE_FINISH_REASON
       (event_get_finish_reason ev)).

(** The two legacy attributes of one slot, named after the index the slot
    stores. *)
Definition legacy_completion (ev : event) : list effect :=
  [ SetSpanAttribute (LLM_COMPLETIONS_field (VInt (ev_index ev)) "finish_reason")
      (event_get_finish_reason ev);
    SetSpanAttribute (LLM_COMPLETIONS_field (VInt (ev_index ev)) "content")
      (VStr (ev_text ev)) ].

(** The completion event of the slot at position [i]: content and position,
    and the finish reason when the slot has one that is not empty. *)
Definition completion_event (i : nat) (ev : event) : effect :=
  SpanAddEvent "completion"
    ([(Key "messaging.content", VStr (ev_text ev));
      (Key "messaging.index", VInt (Z.of_nat i))]
     ++ match ev_finish_reason ev with
        | Some (VStr s) =>
            if bool_decide (s = "") then []
            else [(Key "llm.response.finish_reason", VStr s)]
        | Some (VInt z) =>
            if bool_decide (z = 0) then []
            else [(Key "llm.response.finish_reason", VInt z)]
        | _ => []
        end).

(** The same collaborators with the structured recording of completions. *)
Definition without_legacy_attributes (c : collaborators) : collaborators := {|
  error_metrics_attributes := error_metrics_attributes c;
  shared_metrics_attributes := shared_metrics_attributes c;
  count_prompt_tokens_from_request := count_prompt_tokens_from_request c;
  count_tokens := count_tokens c;
  should_send_prompts := should_send_prompts c;
  set_span_attribute := set_span_attribute c;
  span_is_recording := span_is_recording c;
  span_add_event := span_add_event c;
  span_set_status := span_set_status c;
  span_end := span_end c;
  token_histogram := token_histogram c;
  choice_counter := choice_counter c;
  duration_histogram := duration_histogram c;
  exception_counter := exception_counter c;
  duration := duration c;
  Config_enrich_token_usage := Config_enrich_token_usage c;
  Config_use_legacy_attributes := false;
|}.

(** The same collaborators with other token counters. *)
Definition with_token_counters (prompt_counter : exn + pyval)
    (token_counter : string → exn + pyval) (c : collaborators)
  : collaborators := {|
  error_metrics_attributes := error_metrics_attributes c;
  shared_metrics_attributes := shared_metrics_attributes c;
  count_prompt_tokens_from_request := prompt_counter;
  count_tokens := token_counter;
  should_send_prompts := should_send_prompts c;
  set_span_attribute := set_span_attribute c;
  span_is_recording := span_is_recording c;
  span_add_event := span_add_event c;
  span_set_status := span_set_status c;
  span_end := span_end c;
  token_histogram := token_histogram c;
  choice_counter := choice_counter c;
  duration_histogram := duration_histogram c;
  exception_counter := exception_counter c;
  duration := duration c;
  Config_enrich_token_usage := Config_enrich_token_usage c;
  Config_use_legacy_attributes := Config_use_legacy_attributes c;
|}.

(** The same collaborators with another answer of [should_send_prompts]. *)
Definition with_send_prompts (send : exn + bool) (c : collaborators)
  : collaborators := {|
  error_metrics_attributes := error_metrics_attributes c;
  shared_metrics_attributes := shared_metrics_attributes c;
  count_prompt_tokens_from_request := count_prompt_tokens_from_request c;
  count_tokens := count_tokens c;
  should_send_prompts := send;
  set_span_attribute := set_span_attribute c;
  span_is_recording := span_is_recording c;
  span_add_event := span_add_event c;
  span_set_status := span_set_status c;
  span_end := span_end c;
  token_histogram := token_histogram c;
  choice_counter := choice_counter c;
  duration_histogram := duration_histogram c;
  exception_counter := exception_counter c;
  duration := duration c;
  Config_enrich_token_usage := Config_enrich_token_usage c;
  Config_use_legacy_attributes := Config_use_legacy_attributes c;
|}.

(** ** Further vocabulary for the observers *)

(** The items among the signals a consumer got. *)
Definition yielded (signals : list signal) : list item :=
  omap (λ s, match s with Yield it => Some it | _ => None end) signals.

(** The signals a scripted consumer gets. *)
Definition signalled
    (step : generator → command → generator * signal * list effect)
    (g : generator) (cmds : list command) : list signal :=
  fst (fst (drive step g cmds)).

(** The items the source of a generator still holds, for a generator that
    is not finished. *)
Definition items_left (g : generator) : option (list item) :=
  match g with
  | Created response | Suspended _ response _ => Some (src_items response)
  | Finished => None
  end.

Definition is_throw (cmd : command) : bool :=
  match cmd with Throw _ => true | _ => false end.

(** * Verification *)

(** ** Dictionaries *)

Section DictFacts.
Context {K V : Type} `{EqDecision K}.
Implicit Types (d : dict K V) (k : K) (v : V).

Lemma dict_lookup_set_eq d k v : dict_lookup (dict_set d k v) k = Some v.
Proof.
  induction d as [|[k' v'] d IH]; simpl.
  - by rewrite decide_True.
  - destruct (decide (k' = k)) as [->|Hne]; simpl.
    + by rewrite decide_True.
    + by rewrite decide_False.
Qed.

Lemma dict_lookup_set_ne d k k' v :
  k ≠ k' → dict_lookup (dict_set d k v) k' = dict_lookup d k'.
Proof.
  intros Hne. induction d as [|[k0 v0] d IH]; simpl.
  - by rewrite decide_False.
  - destruct (decide (k0 = k)) as [->|Hk0]; simpl.
    + by rewrite !decide_False.
    + destruct (decide (k0 = k')); [done | apply IH].
Qed.

Lemma dict_get_set_eq d k v dflt : dict_get (dict_set d k v) k dflt = v.
Proof. unfold dict_get. by rewrite dict_lookup_set_eq. Qed.

Lemma dict_get_set_ne d k k' v dflt :
  k ≠ k' → dict_get (dict_set d k v) k' dflt = dict_get d k' dflt.
Proof. intros. unfold dict_get. by rewrite dict_lookup_set_ne. Qed.
End DictFacts.

(** ** Computations and their effects *)

Section Effects.
Context {A B : Type}.
Implicit Types (P : effect → Prop).

Lemma bind_raise (t : list effect) (e : exn) (k : A → M B) :
  ((t, inl e) : M A) ≫= k = (t, inl e).
Proof. reflexivity. Qed.

Lemma bind_return (t : list effect) (a : A) (k : A → M B) :
  ((t, inr a) : M A) ≫= k = (t ++ (k a).1, (k a).2).
Proof. unfold mbind, M_bind, bind. by destruct (k a). Qed.

Lemma Forall_bind P (m : M A) (k : A → M B) :
  Forall P m.1 → (∀ a, Forall P (k a).1) → Forall P (m ≫= k).1.
Proof.
  intros Hm Hk. destruct m as [t [e|a]]; [done|].
  rewrite bind_return. simpl. apply Forall_app. split; [done | apply Hk].
Qed.

Lemma Forall_try_except P (body : M A) (handler : exn → M A) :
  Forall P body.1 → (∀ e, Forall P (handler e).1) →
  Forall P (try_except body handler).1.
Proof.
  intros Hb Hh. destruct body as [t [e|a]]; simpl; [|done].
  destruct (exn_is_Exception e); [|done].
  specialize (Hh e). destruct (handler e) as [t' r]. simpl in *.
  apply Forall_app. by split.
Qed.

Lemma Forall_perform P (eff : effect) (r : option exn) :
  P eff → Forall P (perform eff r).1.
Proof. intros HP. destruct r; simpl; [constructor | by repeat constructor]. Qed.

Lemma Forall_lift P (r : exn + A) : Forall P (lift r).1.
Proof. constructor. Qed.

Lemma Forall_ret P (a : A) : Forall P (mret a : M A).1.
Proof. constructor. Qed.

Lemma Forall_raise P (e : exn) : Forall P (raise e : M A).1.
Proof. constructor. Qed.
End Effects.

Lemma Forall_for_each {A} (P : effect → Prop) (l : list A) (body : A → M unit) :
  (∀ x, Forall P (body x).1) → Forall P (for_each l body).1.
Proof.
  intros Hbody. induction l as [|x l IH]; simpl; [constructor|].
  apply Forall_bind; [apply Hbody | by intros _].
Qed.

(** A guarded block whose handler only logs lets no [Exception] out. *)
Lemma try_except_logged (body : M unit) (msg : string) (e : exn) :
  (try_except body (logger_warning msg)).2 = inl e →
  exn_is_Exception e = false.
Proof.
  destruct body as [t [e'|[]]]; simpl; [|done].
  destruct (exn_is_Exception e') eqn:He'; simpl; congruence.
Qed.

Lemma dont_throw_raise {A} func (e : exn) :
  dont_throw func (raise e : M A) =
  if exn_is_Exception e then ([DontThrowLogged func e], inr None)
  else ([], inl e).
Proof. by destruct e as [cls []]. Qed.

(** Creating a generator raises nothing, so the decorator of an observer
    hands the generator over as it is. *)
Lemma dont_throw_ret {A} func (a : A) :
  dont_throw func (ret a) = ([], inr (Some a)).
Proof. reflexivity. Qed.

(** Decomposes a goal [Forall P m.1] along the structure of [m]. *)
Ltac split_effects :=
  repeat first
    [ apply Forall_ret | apply Forall_raise | apply Forall_lift
    | apply Forall_nil_2
    | apply Forall_bind; [|intros ?]
    | apply Forall_try_except; [|intros ?]
    | apply Forall_for_each; intros ?
    | apply Forall_perform
    | match goal with
      | |- Forall _ (match ?x with _ => _ end).1 => destruct x
      | |- Forall _ (if ?b then _ else _).1 => destruct b
      | |- Forall _ (let '(_, _) := ?x in _).1 => destruct x
      end ].

(** ** Running an observer to the end of its source *)

Section Consume.
Variable completion_tokens0 : option pyval.
Variable c : collaborators.

Lemma pull_nil e cr :
  pull completion_tokens0 c (Source [] e) cr =
  (Finished, (conclusion completion_tokens0 c e cr).1,
             (conclusion completion_tokens0 c e cr).2).
Proof.
  unfold pull, conclusion. simpl. destruct e; [done|].
  by destruct (finalize completion_tokens0 c cr).
Qed.

Lemma consume_suspended items : ∀ it cr e fuel,
  (length items < fuel)%nat →
  consume (resume completion_tokens0 c) fuel (Suspended it (Source items e) cr) =
  Run items
      (Some (conclusion completion_tokens0 c e (process_all (it :: items) cr)).1)
      (process_log (it :: items) cr
       ++ (conclusion completion_tokens0 c e (process_all (it :: items) cr)).2)
      Finished.
Proof.
  induction items as [|x items IH]; intros it cr e fuel Hfuel;
    (destruct fuel as [|fuel]; [simpl in Hfuel; lia|]).
  - simpl. destruct (_process_response_item it cr) as [cr' t] eqn:Hp.
    rewrite pull_nil. simpl.
    destruct (conclusion completion_tokens0 c e cr') as [s t'] eqn:Hc. simpl.
    rewrite app_nil_r.
    unfold conclusion in Hc. destruct e as [e|].
    + by inversion Hc.
    + destruct (finalize completion_tokens0 c cr') as [t0 [e0|[]]];
        by inversion Hc.
  - cbn [consume resume]. destruct (_process_response_item it cr) as [cr' t] eqn:Hp.
    cbn [pull src_items src_end]. rewrite IH; [|simpl in Hfuel; lia].
    cbn [process_all foldl process_log received ending telemetry final].
    rewrite Hp. cbn [fst snd]. f_equal. by rewrite app_nil_r, app_assoc.
Qed.

Lemma consume_created items e fuel :
  (length items < fuel)%nat →
  consume (resume completion_tokens0 c) fuel (Created (Source items e)) =
  Run items
      (Some (conclusion completion_tokens0 c e (process_all items initial_response)).1)
      (process_log items initial_response
       ++ (conclusion completion_tokens0 c e (process_all items initial_response)).2)
      Finished.
Proof.
  intros Hfuel. destruct fuel as [|fuel]; [lia|].
  destruct items as [|x items].
  - simpl. rewrite pull_nil. simpl.
    destruct (conclusion completion_tokens0 c e initial_response) as [s t] eqn:Hc.
    simpl. unfold conclusion in Hc. destruct e as [e|].
    + by inversion Hc.
    + destruct (finalize completion_tokens0 c initial_response) as [t0 [e0|[]]];
        by inversion Hc.
  - cbn [consume resume pull src_items src_end].
    rewrite consume_suspended; [|simpl in Hfuel; lia]. done.
Qed.

(** A finished generator performs nothing more, whatever the consumer
    does. *)
Lemma drive_finished cmds :
  drive (resume completion_tokens0 c) Finished cmds =
  ((λ cmd, match cmd with
           | Next => StopIteration | Throw e => Raised e | Close => Closed
           end) <$> cmds, [], Finished).
Proof.
  induction cmds as [|cmd cmds IH]; [done|].
  cbn [drive]. destruct cmd; cbn [resume]; by rewrite IH.
Qed.
End Consume.

(** ** The item classifier *)

Lemma process_response_item_fst it cr :
  (_process_response_item it cr).1 = (process_response_item_body it cr).1.
Proof.
  unfold _process_response_item. by destruct (process_response_item_body it cr).
Qed.

(** The decorator of the classifier is the only source of effects while
    items are folded. *)
Lemma process_response_item_log it cr :
  Forall decorator_log (_process_response_item it cr).2.
Proof.
  unfold _process_response_item.
  destruct (process_response_item_body it cr) as [cr' [e|]]; cbn [snd].
  - rewrite dont_throw_raise. destruct (exn_is_Exception e); [|constructor].
    apply Forall_singleton. by exists "_process_response_item", e.
  - constructor.
Qed.

Lemma process_log_decorator items : ∀ cr,
  Forall decorator_log (process_log items cr).
Proof.
  induction items as [|it items IH]; intros cr; simpl; [constructor|].
  apply Forall_app. split; [apply process_response_item_log | apply IH].
Qed.

Lemma events_contiguous_step it cr :
  events_contiguous cr →
  (∀ index, it = content_block_start index →
            index ≤ Z.of_nat (length (cr_events cr))) →
  events_contiguous (_process_response_item it cr).1.
Proof.
  intros Hinv Hgap. rewrite process_response_item_fst.
  destruct it as [m u|index|index [text|ty]|stop [u|]|ty]; simpl; try done.
  - (* content_block_start *)
    destruct (Z.leb_spec (Z.of_nat (length (cr_events cr))) index) as [Hle|Hlt];
      simpl; [|done].
    intros i ev Hi. apply lookup_app_Some in Hi as [Hi|[Hlen Hi]].
    + by apply Hinv.
    + apply list_lookup_singleton_Some in Hi as [Hi <-]. simpl.
      specialize (Hgap index eq_refl). lia.
  - (* content_block_delta, text_delta *)
    destruct (py_index (cr_events cr) index) as [j|]; simpl; [|done].
    intros i ev Hi. simpl in Hi. destruct (decide (j = i)) as [->|Hne].
    + rewrite list_lookup_alter_eq in Hi.
      destruct (cr_events cr !! i) as [ev0|] eqn:Hj; simplify_eq/=.
      by apply Hinv.
    + rewrite list_lookup_alter_ne in Hi by done. by apply Hinv.
  - (* message_delta with usage *)
    assert (∀ (i : nat) ev,
              (set_finish_reason stop <$> cr_events cr) !! i = Some ev →
              ev_index ev = Z.of_nat i) as Hfmap.
    { intros i ev Hi. rewrite list_lookup_fmap in Hi.
      destruct (cr_events cr !! i) as [ev0|] eqn:Hj; simplify_eq/=.
      by apply Hinv. }
    destruct (cr_usage cr) as [existing|]; simpl; [|done].
    by destruct (py_add _ _).
  - (* message_delta without usage *)
    intros i ev Hi. simpl in Hi. rewrite list_lookup_fmap in Hi.
    destruct (cr_events cr !! i) as [ev0|] eqn:Hj; simplify_eq/=.
    by apply Hinv.
Qed.

Lemma events_contiguous_process_all items : ∀ cr,
  events_contiguous cr → gapless items cr →
  events_contiguous (process_all items cr).
Proof.
  induction items as [|it items IH]; intros cr Hinv Hgap; [done|].
  destruct Hgap as [Hit Hrest]. simpl. apply IH; [|done].
  apply events_contiguous_step; [done|]. by intros index ->.
Qed.

(** ** Passthrough *)

(** C1: for every finite sequence of items that the source produces, a
    consumer that iterates over the generator of
    [build_from_streaming_response] reaches the end of the stream and has
    received exactly the items of the source, unchanged and in the order of
    the source, whatever the collaborators do and however the source
    ends. *)
Theorem C1_items_forwarded_unchanged
    (c : collaborators) (response : source) (fuel : nat) :
  (length (src_items response) < fuel)%nat →
  let r := consume (build_resume c) fuel (build_from_streaming_response response) in
  received r = src_items response ∧ is_Some (ending r).
Proof.
  intros Hfuel. destruct response as [items e]. simpl in *.
  unfold build_resume, build_from_streaming_response.
  rewrite consume_created by done. simpl. eauto.
Qed.

Lemma C1_items_forwarded_unchanged_witness :
  let r := consume (build_resume quiet) 7
             (build_from_streaming_response (Source hello_stream None)) in
  received r = hello_stream ∧ is_Some (ending r).
Proof.
  apply (C1_items_forwarded_unchanged quiet (Source hello_stream None) 7).
  simpl. lia.
Defined.

(** C2: when the source raises after giving k items, the consumer receives
    those k items and then that same exception; no [span.set_status] and no
    [span.end] is performed on the stream, neither during the run nor by
    anything the consumer does to the generator afterwards. *)
Theorem C2_source_exception_passes_through
    (c : collaborators) (items : list item) (e : exn) (fuel : nat) :
  (length items < fuel)%nat →
  let r := consume (build_resume c) fuel
             (build_from_streaming_response (Source items (Some e))) in
  received r = items
  ∧ ending r = Some (Raised e)
  ∧ (∀ code, SpanSetStatus code ∉ telemetry r)
  ∧ (SpanEnd ∉ telemetry r)
  ∧ (∀ cmds, performed (build_resume c) (final r) cmds = []).
Proof.
  intros Hfuel. unfold build_resume, build_from_streaming_response.
  rewrite consume_created by done. simpl. rewrite app_nil_r.
  pose proof (process_log_decorator items initial_response) as Hlog.
  rewrite Forall_forall in Hlog.
  split_and!; try done.
  - intros code Hin. by destruct (Hlog _ Hin) as (? & ? & ?).
  - intros Hin. by destruct (Hlog _ Hin) as (? & ? & ?).
  - intros cmds. unfold performed. by rewrite drive_finished.
Qed.

Lemma C2_source_exception_passes_through_witness :
  let r := consume (build_resume quiet) 7
             (build_from_streaming_response
                (Source hello_stream (Some (Exn "APIConnectionError" true)))) in
  received r = hello_stream
  ∧ ending r = Some (Raised (Exn "APIConnectionError" true))
  ∧ (∀ code, SpanSetStatus code ∉ telemetry r)
  ∧ (SpanEnd ∉ telemetry r)
  ∧ (∀ cmds, performed (build_resume quiet) (final r) cmds = []).
Proof.
  apply (C2_source_exception_passes_through quiet hello_stream
           (Exn "APIConnectionError" true) 7).
  simpl. lia.
Defined.

(** ** Slot allocation and the accumulator *)

Example hello_stream_accumulator :
  process_all hello_stream initial_response =
  CompleteResponse [Event 0 "Hello" (Some (VStr "end_turn"))] "claude"
    (Some [("input_tokens", VInt 4); ("output_tokens", VInt 8)]).
Proof. reflexivity. Qed.

(** C5, as stated, fails: a [content_block_start] whose index lies beyond
    the current number of slots does create a slot.  On the fresh
    accumulator, index 5 is not the event count (0), yet a slot is appended,
    and it records index 5 at position 0. *)
Lemma C5_gapped_index_creates_slot :
  let cr := (_process_response_item (content_block_start 5) initial_response).1 in
  5 ≠ Z.of_nat (length (cr_events initial_response))
  ∧ cr_events cr = [Event 5 "" None]
  ∧ ¬ events_contiguous cr.
Proof.
  split_and!; [done | reflexivity |].
  intros Hinv. specialize (Hinv 0%nat (Event 5 "" None) eq_refl). done.
Qed.

(** C5, amended: a [content_block_start] item appends a slot, recording the
    index of the item, if and only if the number of slots is at most that
    index, and changes nothing otherwise; and [events[i].index == i] is
    kept by every sequence of items in which each [content_block_start]
    arrives with an index that is at most the number of slots at that
    moment (a slot is then created exactly when the index equals that
    number). *)
Theorem C5_slot_allocation :
  (∀ index cr,
     cr_events (_process_response_item (content_block_start index) cr).1 =
     if bool_decide (Z.of_nat (length (cr_events cr)) ≤ index)
     then cr_events cr ++ [Event index "" None]
     else cr_events cr)
  ∧ (∀ items cr,
       events_contiguous cr → gapless items cr →
       events_contiguous (process_all items cr)).
Proof.
  split.
  - intros index cr. rewrite process_response_item_fst. simpl.
    destruct (Z.leb_spec (Z.of_nat (length (cr_events cr))) index).
    + by rewrite bool_decide_true.
    + by rewrite bool_decide_false by lia.
  - apply events_contiguous_process_all.
Qed.

Lemma C5_slot_allocation_witness :
  events_contiguous (process_all hello_stream initial_response).
Proof.
  apply (proj2 C5_slot_allocation hello_stream initial_response).
  - intros i ev Hi. simpl in Hi. discriminate.
  - simpl. split_and!; (done || lia).
Defined.



(** C8, as stated, fails: the first writer does not win.  A second
    [message_start] item, applied when the model is already set and not
    empty, replaces the model. *)
Lemma C8_second_message_start_overwrites_model :
  let cr1 :=
    (_process_response_item (message_start "claude-3-opus" [("input_tokens", VInt 4)])
       initial_response).1 in
  let cr2 :=
    (_process_response_item (message_start "claude-3-haiku" [("input_tokens", VInt 9)])
       cr1).1 in
  cr_model cr1 = "claude-3-opus"
  ∧ cr_model cr1 ≠ ""
  ∧ cr_model cr2 = "claude-3-haiku"
  ∧ cr_model cr2 ≠ cr_model cr1.
Proof. by split_and!. Qed.

Lemma process_response_item_model it cr :
  cr_model (_process_response_item it cr).1 =
  match it with
  | message_start model _ => model
  | _ => cr_model cr
  end.
Proof.
  rewrite process_response_item_fst.
  destruct it as [m u|index|index [text|ty]|stop [u|]|ty]; simpl; try done.
  - by destruct (_ <=? _).
  - by destruct (py_index _ _).
  - destruct (cr_usage cr); [|done]. by destruct (py_add _ _).
Qed.

(** C8, amended: a [message_start] item sets the model of the accumulator
    to the model of the item and replaces the usage by the usage snapshot of
    the item, whether or not they were set before; the slots are left alone
    and nothing is logged.  The last writer wins for the model: after any
    sequence of items the model is that of the last [message_start] item of
    the sequence, and the model it had before when there is none. *)
Theorem C8_message_start_overwrites :
  (∀ model usage cr,
     _process_response_item (message_start model usage) cr =
     (CompleteResponse (cr_events cr) model (Some usage), []))
  ∧ (∀ items cr,
       cr_model (process_all items cr) =
       default (cr_model cr) (last_model items)).
Proof.
  split; [done|].
  induction items as [|it items IH]; intros cr; [done|].
  change (process_all (it :: items) cr)
    with (process_all items (_process_response_item it cr).1).
  rewrite IH. cbn [last_model]. destruct (last_model items) as [model|]; [done|].
  rewrite process_response_item_model. by destruct it.
Qed.

(** ** Exceptions of the guarded blocks *)

Section RaisesOnly.
Context {A B : Type} (Q : exn → Prop).

Lemma raises_only_ret (a : A) : raises_only Q (mret a : M A).
Proof. intros e He. discriminate. Qed.

Lemma raises_only_raise (e : exn) : Q e → raises_only Q (raise e : M A).
Proof. intros HQ e' He'. by simplify_eq/=. Qed.

Lemma raises_only_lift (r : exn + A) :
  (∀ e, r = inl e → Q e) → raises_only Q (lift r).
Proof. intros Hr e He. by apply Hr. Qed.

Lemma raises_only_perform (eff : effect) (r : option exn) :
  (∀ e, r = Some e → Q e) → raises_only Q (perform eff r).
Proof.
  intros Hr e He. destruct r as [e'|]; simpl in He; [|done].
  simplify_eq. by apply Hr.
Qed.

Lemma raises_only_bind (m : M A) (k : A → M B) :
  raises_only Q m → (∀ a, raises_only Q (k a)) → raises_only Q (m ≫= k).
Proof.
  intros Hm Hk e He. destruct m as [t [e'|a]].
  - rewrite bind_raise in He. simplify_eq/=. by apply Hm.
  - rewrite bind_return in He. by apply (Hk a).
Qed.
End RaisesOnly.

Lemma raises_only_for_each {A} (Q : exn → Prop) (l : list A)
    (body : A → M unit) :
  (∀ x, raises_only Q (body x)) → raises_only Q (for_each l body).
Proof.
  intros Hbody. induction l as [|x l IH]; simpl; [apply raises_only_ret|].
  apply raises_only_bind; [apply Hbody | by intros _].
Qed.

Lemma py_add_raises a b e : py_add a b = inl e → is_Exception e.
Proof. destruct a, b; simpl; intros; by simplify_eq. Qed.

(** When the body raises nothing but [Exception]s, a block that logs them
    returns normally. *)
Lemma try_except_logged_returns (body : M unit) (msg : string) :
  raises_only is_Exception body →
  (try_except body (logger_warning msg)).2 = inr tt.
Proof.
  intros Hbody. destruct body as [t [e|[]]]; simpl; [|done].
  rewrite (Hbody e eq_refl). done.
Qed.

Lemma bind_unit_returns {B} (m : M unit) (k : unit → M B) :
  m.2 = inr tt → m ≫= k = (m.1 ++ (k tt).1, (k tt).2).
Proof. destruct m as [t [e|[]]]; [done|]. intros _. apply bind_return. Qed.

(** Decomposes a goal [raises_only Q m] along the structure of [m]. *)
Ltac split_raises :=
  repeat first
    [ match goal with
      | |- raises_only _ (match ?x with _ => _ end) => destruct x eqn:?
      | |- raises_only _ (if ?b then _ else _) => destruct b eqn:?
      | |- raises_only _ (let '(_, _) := ?x in _) => destruct x
      end
    | apply raises_only_ret
    | apply raises_only_bind; [|intros ?]
    | apply raises_only_for_each; intros ?
    | apply raises_only_perform
    | apply raises_only_lift ].

Section Orderly.
Variable c : collaborators.
Hypothesis Hc : orderly c.

Lemma set_token_usage_raises cr prompt_tokens completion_tokens attrs :
  raises_only is_Exception
    (_set_token_usage c cr prompt_tokens completion_tokens attrs
       (token_histogram c) (choice_counter c)).
Proof.
  unfold _set_token_usage, call_set_span_attribute. split_raises;
    eauto using py_add_raises, set_attribute_raises,
      token_histogram_raises, choice_counter_raises.
Qed.

Lemma enrich_token_usage_returns completion_tokens0 cr attrs :
  (enrich_token_usage completion_tokens0 c cr attrs).2 = inr tt.
Proof.
  unfold enrich_token_usage. apply try_except_logged_returns.
  apply raises_only_bind; [|intros prompt_tokens].
  { split_raises. eauto using prompt_counter_raises. }
  apply raises_only_bind; [|intros completion_tokens].
  { split_raises. eauto using token_counter_raises. }
  apply raises_only_bind; [|intros v; apply set_token_usage_raises].
  unfold read_local. destruct completion_tokens;
    [apply raises_only_ret | by apply raises_only_raise].
Qed.

Lemma set_completions_returns events : (_set_completions c events).2 = inr tt.
Proof.
  unfold _set_completions. destruct (recording_returns c Hc) as [b ->].
  unfold lift. rewrite bind_return. simpl.
  destruct (negb b || bool_decide (events = [])); [done|].
  destruct (Config_use_legacy_attributes c);
    apply try_except_logged_returns; unfold call_set_span_attribute,
      _emit_completion_event; split_raises;
    eauto using set_attribute_raises, add_event_raises.
Qed.

Lemma record_duration_orderly attrs :
  record_duration c attrs =
  (match duration_histogram c with
   | Some _ => [HistogramRecord DurationHistogram (duration c) attrs]
   | None => []
   end, inr tt).
Proof.
  unfold record_duration.
  destruct (duration_histogram c) as [record|] eqn:Hd; [|done].
  by rewrite (duration_accepts c Hc record _ _ Hd).
Qed.

(** With orderly collaborators the statements after the loop run through,
    each block once and in the order of the source. *)
Lemma finalize_orderly completion_tokens0 cr attrs send :
  shared_metrics_attributes c cr = inr attrs →
  should_send_prompts c = inr send →
  finalize completion_tokens0 c cr =
  ((record_duration c attrs).1
   ++ (if Config_enrich_token_usage c
       then (enrich_token_usage completion_tokens0 c cr attrs).1 else [])
   ++ (if send then (_set_completions c (cr_events cr)).1 else [])
   ++ [SpanSetStatus StatusOK; SpanEnd], inr tt).
Proof.
  intros Hshared Hsend. unfold finalize. rewrite Hshared, Hsend.
  unfold lift. rewrite bind_return. cbn [app].
  rewrite bind_unit_returns by (by rewrite record_duration_orderly).
  rewrite bind_unit_returns; cycle 1.
  { destruct (Config_enrich_token_usage c);
      [apply enrich_token_usage_returns | done]. }
  rewrite bind_return. cbn [app].
  rewrite bind_unit_returns; cycle 1.
  { destruct send; [apply set_completions_returns | done]. }
  rewrite (status_accepts c Hc), (end_accepts c Hc). cbn.
  f_equal. f_equal.
  destruct (Config_enrich_token_usage c), send; cbn; by rewrite ?app_nil_r.
Qed.
End Orderly.

(** ** Effects of the guarded blocks *)

Lemma inner_effect_decorator eff : decorator_log eff → inner_effect eff.
Proof. by intros (func & e & ->). Qed.

Lemma process_log_inner items cr : Forall inner_effect (process_log items cr).
Proof.
  eapply Forall_impl; [apply process_log_decorator|].
  apply inner_effect_decorator.
Qed.

Lemma set_token_usage_inner c cr p q attrs th cc :
  Forall inner_effect (_set_token_usage c cr p q attrs th cc).1.
Proof. unfold _set_token_usage, call_set_span_attribute. by split_effects. Qed.

Lemma enrich_token_usage_inner completion_tokens0 c cr attrs :
  Forall inner_effect (enrich_token_usage completion_tokens0 c cr attrs).1.
Proof.
  unfold enrich_token_usage, read_local, logger_warning.
  by split_effects.
Qed.

Lemma set_completions_inner c events :
  Forall inner_effect (_set_completions c events).1.
Proof.
  unfold _set_completions, call_set_span_attribute, _emit_completion_event,
    logger_warning.
  by split_effects.
Qed.

Lemma count_effects_app p t1 t2 :
  count_effects p (t1 ++ t2) = (count_effects p t1 + count_effects p t2)%nat.
Proof. unfold count_effects. by rewrite List.filter_app, length_app. Qed.

Lemma count_effects_none p t :
  Forall (λ eff, p eff = false) t → count_effects p t = 0%nat.
Proof.
  unfold count_effects. induction 1 as [|eff t Heff _ IH]; [done|].
  simpl. by rewrite Heff.
Qed.

Lemma count_effects_inner p t :
  (∀ eff, inner_effect eff → p eff = false) →
  Forall inner_effect t → count_effects p t = 0%nat.
Proof.
  intros Hp Ht. apply count_effects_none. eapply Forall_impl; [done|]. done.
Qed.

(** ** Finalization *)

Lemma inner_not_set_status_ok eff : inner_effect eff → is_set_status_ok eff = false.
Proof. intros (H & _ & _). by destruct eff as [| | [] | | | | |]. Qed.

Lemma inner_not_set_status eff : inner_effect eff → is_set_status eff = false.
Proof. by intros (H & _ & _). Qed.

Lemma inner_not_span_end eff : inner_effect eff → is_span_end eff = false.
Proof. by intros (_ & H & _). Qed.

Lemma inner_not_duration_record eff :
  inner_effect eff → is_duration_record eff = false.
Proof. by intros (_ & _ & H). Qed.

Lemma count_effects_bind_l {A B} p (m : M A) (k : A → M B) (n : nat) :
  Forall (λ eff, p eff = false) m.1 →
  (∀ a, (count_effects p (k a).1 ≤ n)%nat) →
  (count_effects p (m ≫= k).1 ≤ n)%nat.
Proof.
  intros Hm Hk. destruct m as [t [e|a]].
  - rewrite bind_raise. rewrite count_effects_none by done. lia.
  - rewrite bind_return. cbn [fst]. rewrite count_effects_app.
    rewrite (count_effects_none _ t) by done. apply Hk.
Qed.

Lemma count_effects_bind_r {A B} p (m : M A) (k : A → M B) (n : nat) :
  (count_effects p m.1 ≤ n)%nat →
  (∀ a, Forall (λ eff, p eff = false) (k a).1) →
  (count_effects p (m ≫= k).1 ≤ n)%nat.
Proof.
  intros Hm Hk. destruct m as [t [e|a]]; [done|].
  rewrite bind_return. cbn [fst] in *. rewrite count_effects_app.
  rewrite (count_effects_none _ _ (Hk a)). by rewrite Nat.add_0_r.
Qed.

Lemma count_effects_perform p eff r :
  (count_effects p (perform eff r).1 ≤ 1)%nat.
Proof.
  unfold count_effects. destruct r; simpl; [lia|].
  destruct (p eff); simpl; lia.
Qed.




(** C3, on the failing inputs: a duration histogram whose [record] raises.
    Whatever the stream and whatever the exception, the consumer receives
    every item and its last [next] raises that exception (the
    [RuntimeError] that stands for it when it is a [StopIteration]) instead
    of ending the iteration: the exception is neither caught nor logged
    (the telemetry of the stream holds what the classifier logged and
    nothing else), and the span is not closed. *)
Theorem C3_duration_histogram_failure_reaches_consumer
    (c : collaborators) (items : list item) (fuel : nat)
    (record : pyval → attributes → option exn) (attrs : attributes)
    (e : exn) :
  (length items < fuel)%nat →
  shared_metrics_attributes c (process_all items initial_response) = inr attrs →
  duration_histogram c = Some record →
  record (duration c) attrs = Some e →
  consume (build_resume c) fuel
    (build_from_streaming_response (Source items None)) =
  Run items (Some (Raised (escaping e))) (process_log items initial_response)
      Finished.
Proof.
  intros Hfuel Hshared Hhist Hrecord.
  unfold build_resume, build_from_streaming_response.
  rewrite consume_created by done.
  unfold conclusion, finalize. rewrite Hshared. unfold lift.
  rewrite bind_return. unfold record_duration. rewrite Hhist, Hrecord.
  cbn. by rewrite app_nil_r.
Qed.

Lemma C3_duration_histogram_failure_reaches_consumer_witness :
  consume (build_resume rejecting_duration_histogram) 7
    (build_from_streaming_response (Source hello_stream None)) =
  Run hello_stream (Some (Raised (Exn "ValueError" true))) [] Finished.
Proof.
  apply (C3_duration_histogram_failure_reaches_consumer
           rejecting_duration_histogram hello_stream 7
           (λ _ _, Some (Exn "ValueError" true))
           [(LLM_RESPONSE_MODEL, VStr "claude")] (Exn "ValueError" true)).
  - simpl. lia.
  - reflexivity.
  - reflexivity.
  - reflexivity.
Defined.

(** ** The error counter *)

(** C6, on the failing inputs: the source raises at a pull, after any
    number of items.  Whatever the collaborators (an exception counter may
    be configured) and whatever the exception, the consumer receives the
    items and its last [next] raises that exception, and the observer has
    done nothing about it: the telemetry of the stream is what the decorator
    of the classifier logged for the items and nothing else, so the error
    counter has not been incremented, and the span has neither a status nor
    an end.  The handler of lines 157-161 guards [yield item] alone; the pull
    is the [for] statement of line 154, outside the [try]. *)
Theorem C6_pull_failure_is_not_counted
    (c : collaborators) (items : list item) (e : exn) (fuel : nat) :
  (length items < fuel)%nat →
  consume (build_resume c) fuel
    (build_from_streaming_response (Source items (Some e))) =
  Run items (Some (Raised e)) (process_log items initial_response) Finished
  ∧ Forall decorator_log (process_log items initial_response)
  ∧ count_effects is_exception_add (process_log items initial_response) = 0%nat
  ∧ count_effects is_set_status (process_log items initial_response) = 0%nat
  ∧ count_effects is_span_end (process_log items initial_response) = 0%nat.
Proof.
  intros Hfuel. split_and!.
  - unfold build_resume, build_from_streaming_response.
    rewrite consume_created by done. cbn [conclusion fst snd].
    by rewrite app_nil_r.
  - apply process_log_decorator.
  - apply count_effects_none.
    eapply Forall_impl; [apply process_log_decorator|].
    by intros eff (func & e' & ->).
  - apply count_effects_inner; [apply inner_not_set_status|apply process_log_inner].
  - apply count_effects_inner; [apply inner_not_span_end|apply process_log_inner].
Qed.

Lemma C6_pull_failure_is_not_counted_witness :
  is_Some (exception_counter quiet)
  ∧ consume (build_resume quiet) 3
      (build_from_streaming_response
         (Source [content_block_start 0] (Some (Exn "APIConnectionError" true)))) =
    Run [content_block_start 0]
        (Some (Raised (Exn "APIConnectionError" true))) [] Finished.
Proof.
  split; [by eexists|].
  apply (C6_pull_failure_is_not_counted quiet [content_block_start 0]
           (Exn "APIConnectionError" true) 3).
  simpl. lia.
Defined.

(** ** The two observers *)

(** The two finalizations agree on every accumulator whose usage is not
    empty: [completion_tokens] is then assigned before it is read. *)
Lemma finalize_agrees_with_usage c cr :
  is_Some (truthy_usage cr) →
  finalize None c cr = finalize (Some (VInt (-1))) c cr.
Proof.
  intros [usage Husage]. unfold finalize, enrich_token_usage.
  by rewrite Husage.
Qed.

(** C9, at the failing input: an empty stream, token enrichment enabled.
    The synchronous observer sets the token-usage attributes on the span
    (with a completion count of -1) and records the input tokens; the
    asynchronous observer reads [completion_tokens] before any assignment,
    logs the [UnboundLocalError] and sets no token-usage attribute. *)
Theorem C9_observers_differ_on_empty_stream :
  telemetry (consume (build_resume quiet) 1
               (build_from_streaming_response (Source [] None))) =
    [ HistogramRecord DurationHistogram (VInt 3) [(LLM_RESPONSE_MODEL, VStr "")];
      SetSpanAttribute LLM_USAGE_PROMPT_TOKENS (VInt 10);
      SetSpanAttribute LLM_USAGE_COMPLETION_TOKENS (VInt (-1));
      SetSpanAttribute LLM_USAGE_TOTAL_TOKENS (VInt 9);
      SetSpanAttribute LLM_RESPONSE_MODEL (VStr "");
      SetSpanAttribute LLM_USAGE_CACHE_READ_INPUT_TOKENS (VInt 0);
      SetSpanAttribute LLM_USAGE_CACHE_CREATION_INPUT_TOKENS (VInt 0);
      HistogramRecord TokenHistogram (VInt 10)
        [(LLM_RESPONSE_MODEL, VStr ""); (LLM_TOKEN_TYPE, VStr "input")];
      SpanSetStatus StatusOK; SpanEnd ]
  ∧ telemetry (consume (abuild_resume quiet) 1
                 (abuild_from_streaming_response (Source [] None))) =
    [ HistogramRecord DurationHistogram (VInt 3) [(LLM_RESPONSE_MODEL, VStr "")];
      LoggerWarning "Failed to set token usage, error: %s" UnboundLocalError;
      SpanSetStatus StatusOK; SpanEnd ]
  ∧ telemetry (consume (build_resume quiet) 1
                 (build_from_streaming_response (Source [] None)))
    ≠ telemetry (consume (abuild_resume quiet) 1
                   (abuild_from_streaming_response (Source [] None))).
Proof. by split_and!. Qed.

(** ** Token enrichment switched off *)

Lemma decorator_quiet_on_tokens eff : decorator_log eff → quiet_on_tokens eff.
Proof. by intros (func & e & ->). Qed.

Section EnrichmentOff.
Variable completion_tokens0 : option pyval.
Variable c : collaborators.
Hypothesis Hoff : Config_enrich_token_usage c = false.

Lemma finalize_quiet_on_tokens cr :
  Forall quiet_on_tokens (finalize completion_tokens0 c cr).1.
Proof.
  unfold finalize. rewrite Hoff.
  unfold record_duration, _set_completions, call_set_span_attribute,
    _emit_completion_event, logger_warning.
  by split_effects.
Qed.

Lemma pull_quiet_on_tokens response cr :
  Forall quiet_on_tokens (pull completion_tokens0 c response cr).2.
Proof.
  unfold pull. destruct (src_items response); [|constructor].
  destruct (src_end response); [constructor|].
  pose proof (finalize_quiet_on_tokens cr) as Hfin.
  by destruct (finalize completion_tokens0 c cr).
Qed.

Lemma on_exception_quiet_on_tokens e :
  Forall quiet_on_tokens (leaving (try_except (raise e) (on_exception c))).1.
Proof.
  assert (Forall quiet_on_tokens (try_except (raise e) (on_exception c)).1) as H.
  { unfold on_exception. by split_effects. }
  by destruct (try_except (raise e) (on_exception c)) as [t [e'|[]]].
Qed.

Lemma resume_quiet_on_tokens g cmd :
  Forall quiet_on_tokens (resume completion_tokens0 c g cmd).2.
Proof.
  destruct g as [response|it response cr|], cmd as [|e|]; cbn [resume snd];
    try constructor.
  - apply pull_quiet_on_tokens.
  - pose proof (process_response_item_log it cr) as Hlog.
    destruct (_process_response_item it cr) as [cr' t].
    pose proof (pull_quiet_on_tokens response cr') as Hpull.
    destruct (pull completion_tokens0 c response cr') as [[g' s] t']. simpl in *.
    apply Forall_app. split; [|done].
    eapply Forall_impl; [done | apply decorator_quiet_on_tokens].
  - pose proof (on_exception_quiet_on_tokens e) as H.
    by destruct (leaving _).
Qed.

Lemma performed_quiet_on_tokens cmds : ∀ g,
  Forall quiet_on_tokens (performed (resume completion_tokens0 c) g cmds).
Proof.
  unfold performed.
  induction cmds as [|cmd cmds IH]; intros g; cbn [drive]; [constructor|].
  pose proof (resume_quiet_on_tokens g cmd) as Hstep.
  destruct (resume completion_tokens0 c g cmd) as [[g' s] t].
  specialize (IH g').
  destruct (drive (resume completion_tokens0 c) g' cmds) as [[ss t'] g''].
  simpl in *. apply Forall_app. by split.
Qed.
End EnrichmentOff.

(** C10: when token enrichment is disabled at finalization, no stream of
    the observer performs any token-usage telemetry, whatever the generator
    has accumulated (usage counts, event slots) and whatever the consumer
    does: none of the six token-usage span attributes is set, the token
    histogram records nothing and the choice counter is not incremented. *)
Theorem C10_no_token_telemetry_when_disabled
    (c : collaborators) (g : generator) (cmds : list command) :
  Config_enrich_token_usage c = false →
  Forall (λ eff, token_usage_effect eff = false)
         (performed (build_resume c) g cmds).
Proof. intros Hoff. by apply performed_quiet_on_tokens. Qed.

Lemma C10_no_token_telemetry_when_disabled_witness :
  Forall (λ eff, token_usage_effect eff = false)
         (performed (build_resume (without_enrichment quiet))
            (build_from_streaming_response (Source hello_stream None))
            [Next; Next; Next; Next; Next; Next; Next]).
Proof.
  apply (C10_no_token_telemetry_when_disabled (without_enrichment quiet)).
  reflexivity.
Defined.

(** * Further properties of the classifier *)

Lemma string_append_cons a (s t : string) :
  String a s +:+ t = String a (s +:+ t).
Proof. reflexivity. Qed.

Lemma string_append_assoc (s1 s2 s3 : string) :
  (s1 +:+ s2) +:+ s3 = s1 +:+ (s2 +:+ s3).
Proof.
  induction s1 as [|a s1 IH]; [done|].
  rewrite !string_append_cons. by f_equal.
Qed.

Lemma string_append_nil_r (s : string) : s +:+ "" = s.
Proof.
  induction s as [|a s IH]; [done|].
  rewrite string_append_cons. by f_equal.
Qed.

Lemma py_index_Some {A} (l : list A) (index : Z) :
  - Z.of_nat (length l) ≤ index < Z.of_nat (length l) →
  py_index l index = Some (slot_position (length l) index)
  ∧ (slot_position (length l) index < length l)%nat.
Proof.
  intros Hrange. unfold py_index, slot_position. cbv zeta.
  destruct (bool_decide_reflect (0 ≤ index)) as [Hpos|Hneg].
  - rewrite (proj2 (Z.leb_le _ _) Hpos), (proj2 (Z.ltb_lt _ _)) by lia.
    split; [done | lia].
  - rewrite (proj2 (Z.leb_gt _ _)) by lia. cbn [andb].
    rewrite (proj2 (Z.leb_le _ _)), (proj2 (Z.ltb_lt _ _)) by lia.
    split; [done | lia].
Qed.

Lemma py_index_None {A} (l : list A) (index : Z) :
  ¬ (- Z.of_nat (length l) ≤ index < Z.of_nat (length l)) →
  py_index l index = None.
Proof.
  intros Hrange. unfold py_index. cbv zeta.
  destruct (Z.leb_spec 0 index), (Z.ltb_spec index (Z.of_nat (length l)));
    cbn [andb]; try lia;
    destruct (Z.leb_spec (- Z.of_nat (length l)) index),
             (Z.ltb_spec index 0); cbn [andb]; try done; lia.
Qed.

(** X1: a [text_delta] item whose index Python accepts for the list of
    slots (from [-len] to [len - 1], a negative index counting from the end)
    appends its text to the text of that one slot: the slot keeps its index
    and finish reason, every other slot, the number of slots, the model and
    the usage are unchanged, and nothing is logged.  With any other index
    the accumulator is left exactly as it was and the [IndexError] is logged
    by the decorator instead of being raised. *)
Theorem X1_text_delta_updates_one_slot
    (index : Z) (text : string) (cr : complete_response) :
  let n := length (cr_events cr) in
  let r := _process_response_item (content_block_delta index (text_delta text)) cr in
  (- Z.of_nat n ≤ index < Z.of_nat n →
   let i := slot_position n index in
   r.2 = []
   ∧ cr_model r.1 = cr_model cr
   ∧ cr_usage r.1 = cr_usage cr
   ∧ length (cr_events r.1) = n
   ∧ (∃ ev, cr_events cr !! i = Some ev
            ∧ cr_events r.1 !! i =
              Some (Event (ev_index ev) (ev_text ev +:+ text)
                          (ev_finish_reason ev)))
   ∧ (∀ j, j ≠ i → cr_events r.1 !! j = cr_events cr !! j))
  ∧ (¬ (- Z.of_nat n ≤ index < Z.of_nat n) →
     r = (cr, [DontThrowLogged "_process_response_item" IndexError])).
Proof.
  cbv zeta. unfold _process_response_item. cbn [process_response_item_body].
  split.
  - intros Hrange. destruct (py_index_Some (cr_events cr) index Hrange) as [-> Hlt].
    cbn. split_and!; try done.
    + by rewrite length_alter.
    + destruct (lookup_lt_is_Some_2 _ _ Hlt) as [ev Hev].
      exists ev. split; [done|].
      by rewrite list_lookup_alter_eq, Hev.
    + intros j Hj. by rewrite list_lookup_alter_ne.
  - intros Hrange. by rewrite (py_index_None _ _ Hrange).
Qed.

Lemma X1_text_delta_updates_one_slot_witness :
  let cr := CompleteResponse [Event 0 "Hel" None; Event 1 "Wor" None] "claude" (Some []) in
  let r := _process_response_item (content_block_delta (-1) (text_delta "ld!")) cr in
  r.2 = []
  ∧ cr_events r.1 !! 1%nat = Some (Event 1 "World!" None)
  ∧ cr_events r.1 !! 0%nat = Some (Event 0 "Hel" None).
Proof.
  destruct (X1_text_delta_updates_one_slot (-1) "ld!"
              (CompleteResponse [Event 0 "Hel" None; Event 1 "Wor" None]
                 "claude" (Some []))) as [Hin _].
  destruct Hin as (Hlog & _ & _ & _ & (ev & Hev & Hslot) & Hother).
  - simpl. lia.
  - split_and!; [exact Hlog | | exact (Hother 0%nat ltac:(done))].
    simpl in Hev. injection Hev as <-. exact Hslot.
Defined.

Lemma event_eta (ev : event) :
  Event (ev_index ev) (ev_text ev +:+ "") (ev_finish_reason ev) = ev.
Proof. destruct ev. simpl. by rewrite string_append_nil_r. Qed.

(** One item keeps every slot in place, with its index, and at most
    extends its text. *)
Lemma slot_survives_item it cr (i : nat) ev :
  cr_events cr !! i = Some ev →
  ∃ suffix fr,
    cr_events (_process_response_item it cr).1 !! i =
    Some (Event (ev_index ev) (ev_text ev +:+ suffix) fr).
Proof.
  intros Hev. rewrite process_response_item_fst.
  assert (∃ suffix fr,
            cr_events cr !! i =
            Some (Event (ev_index ev) (ev_text ev +:+ suffix) fr)) as Hsame.
  { exists "", (ev_finish_reason ev). by rewrite event_eta. }
  assert (∀ stop, ∃ suffix fr,
            (set_finish_reason stop <$> cr_events cr) !! i =
            Some (Event (ev_index ev) (ev_text ev +:+ suffix) fr)) as Hfin.
  { intros stop. exists "", (Some stop).
    rewrite list_lookup_fmap, Hev. simpl. unfold set_finish_reason.
    by rewrite string_append_nil_r. }
  destruct it as [m u|index|index [text|ty]|stop [u|]|ty]; simpl; try done.
  - destruct (_ <=? _); simpl; [|done].
    exists "", (ev_finish_reason ev).
    rewrite lookup_app_l by (by eapply lookup_lt_Some).
    by rewrite event_eta.
  - destruct (py_index (cr_events cr) index) as [j|]; simpl; [|done].
    destruct (decide (j = i)) as [->|Hne].
    + exists text, (ev_finish_reason ev).
      by rewrite list_lookup_alter_eq, Hev.
    + by rewrite list_lookup_alter_ne.
  - destruct (cr_usage cr); simpl; [|apply Hfin].
    destruct (py_add _ _); simpl; apply Hfin.
Qed.

(** X2: no sequence of items removes, moves or renumbers a slot, and the
    text of a slot only grows at its end: a slot that is at position [i]
    is still at position [i] after any items, with the same index and with
    a text that starts with the text it had. *)
Theorem X2_slots_persist_and_text_grows
    (items : list item) (cr : complete_response) (i : nat) (ev : event) :
  cr_events cr !! i = Some ev →
  ∃ suffix fr,
    cr_events (process_all items cr) !! i =
    Some (Event (ev_index ev) (ev_text ev +:+ suffix) fr).
Proof.
  revert cr ev. induction items as [|it items IH]; intros cr ev Hev.
  - exists "", (ev_finish_reason ev). by rewrite event_eta.
  - change (process_all (it :: items) cr)
      with (process_all items (_process_response_item it cr).1).
    destruct (slot_survives_item it cr i ev Hev) as (s1 & fr1 & Hstep).
    destruct (IH _ _ Hstep) as (s2 & fr2 & Hrest). cbn in Hrest.
    exists (s1 +:+ s2), fr2. by rewrite <- string_append_assoc.
Qed.

Lemma X2_slots_persist_and_text_grows_witness :
  ∃ suffix fr,
    cr_events (process_all hello_stream
                 (CompleteResponse [Event 0 ">> " None] "" (Some []))) !! 0%nat =
    Some (Event 0 (">> " +:+ suffix) fr).
Proof.
  apply (X2_slots_persist_and_text_grows hello_stream
           (CompleteResponse [Event 0 ">> " None] "" (Some [])) 0
           (Event 0 ">> " None)).
  reflexivity.
Defined.

Lemma join_app (l1 l2 : list string) : join (l1 ++ l2) = join l1 +:+ join l2.
Proof.
  induction l1 as [|s l1 IH]; [done|].
  cbn [app join foldr]. fold (join (l1 ++ l2)) (join l1).
  by rewrite IH, string_append_assoc.
Qed.

Lemma py_index_forward {A} (l : list A) (index : Z) (j : nat) :
  0 ≤ index → py_index l index = Some j → index = Z.of_nat j.
Proof.
  intros Hpos. unfold py_index. cbv zeta.
  rewrite (proj2 (Z.leb_le _ _) Hpos). cbn [andb].
  destruct (Z.ltb_spec index (Z.of_nat (length l))).
  - intros [= <-]. lia.
  - rewrite (proj2 (Z.ltb_ge _ _)) by lia. by rewrite andb_false_r.
Qed.

Lemma slot_text_after_item it cr (i : nat) ev :
  cr_events cr !! i = Some ev →
  forward_indexed [it] →
  ∃ fr,
    cr_events (_process_response_item it cr).1 !! i =
    Some (Event (ev_index ev) (ev_text ev +:+ join (texts_for i [it])) fr).
Proof.
  intros Hev Hfwd. unfold forward_indexed in Hfwd.
  rewrite Forall_singleton in Hfwd.
  rewrite process_response_item_fst.
  assert (cr_events cr !! i =
          Some (Event (ev_index ev) (ev_text ev +:+ "") (ev_finish_reason ev)))
    as Hsame by (by rewrite event_eta).
  assert (∀ stop,
            (set_finish_reason stop <$> cr_events cr) !! i =
            Some (Event (ev_index ev) (ev_text ev +:+ "") (Some stop))) as Hfin.
  { intros stop. rewrite list_lookup_fmap, Hev. simpl.
    unfold set_finish_reason. by rewrite string_append_nil_r. }
  destruct it as [m u|index|index [text|ty]|stop [u|]|ty]; simpl;
    try (by eexists).
  - destruct (_ <=? _); simpl; [|by eexists].
    exists (ev_finish_reason ev).
    by rewrite lookup_app_l by (by eapply lookup_lt_Some).
  - exists (ev_finish_reason ev).
    destruct (bool_decide_reflect (index = Z.of_nat i)) as [->|Hne].
    + destruct (py_index_Some (cr_events cr) (Z.of_nat i)) as [Hp _].
      { apply lookup_lt_Some in Hev. lia. }
      rewrite Hp. unfold slot_position.
      rewrite bool_decide_true, Nat2Z.id by lia. simpl.
      rewrite list_lookup_alter_eq, Hev. simpl. unfold append_text, join.
      simpl. by rewrite string_append_nil_r.
    + destruct (py_index (cr_events cr) index) as [j|] eqn:Hp; simpl; [|done].
      rewrite list_lookup_alter_ne; [done|].
      intros ->. apply Hne. by eapply py_index_forward.
  - destruct (cr_usage cr); simpl; [|by eexists].
    destruct (py_add _ _); simpl; by eexists.
Qed.

(** X3: text deltas addressed to different slots do not mix.  In any
    sequence of items whose text deltas count their slot from the front
    (no negative index), the final text of a slot that exists beforehand is
    the text it had followed by the texts of the deltas addressed to it, in
    their order of arrival; the slot keeps its position and index, whatever
    else the sequence holds. *)
Theorem X3_text_of_slot_is_concatenation
    (items : list item) (cr : complete_response) (i : nat) (ev : event) :
  cr_events cr !! i = Some ev →
  forward_indexed items →
  ∃ fr,
    cr_events (process_all items cr) !! i =
    Some (Event (ev_index ev) (ev_text ev +:+ join (texts_for i items)) fr).
Proof.
  revert cr ev. induction items as [|it items IH]; intros cr ev Hev Hfwd.
  - exists (ev_finish_reason ev). simpl. by rewrite event_eta.
  - apply Forall_cons in Hfwd as [Hit Hitems].
    change (process_all (it :: items) cr)
      with (process_all items (_process_response_item it cr).1).
    destruct (slot_text_after_item it cr i ev Hev) as (fr1 & Hstep).
    { by apply Forall_singleton. }
    destruct (IH _ _ Hstep Hitems) as (fr2 & Hrest). cbn in Hrest.
    exists fr2. rewrite Hrest. f_equal. f_equal.
    rewrite string_append_assoc. f_equal.
    change (it :: items) with ([it] ++ items).
    assert (texts_for i ([it] ++ items) = texts_for i [it] ++ texts_for i items)
      as ->; [|by rewrite join_app].
    destruct it as [m u|index|index [text|ty]|stop u|ty]; simpl; try done.
    by destruct (bool_decide _).
Qed.

Lemma X3_text_of_slot_is_concatenation_witness :
  ∃ fr,
    cr_events
      (process_all
         [content_block_delta 0 (text_delta "Hel");
          content_block_delta 1 (text_delta "Wor");
          content_block_delta 0 (text_delta "lo");
          content_block_delta 1 (text_delta "ld!");
          message_delta (VStr "end_turn") None]
         (CompleteResponse [Event 0 "" None; Event 1 "" None] "" (Some [])))
      !! 1%nat =
    Some (Event 1 ("" +:+ join ["Wor"; "ld!"]) fr).
Proof.
  apply (X3_text_of_slot_is_concatenation
           [content_block_delta 0 (text_delta "Hel");
            content_block_delta 1 (text_delta "Wor");
            content_block_delta 0 (text_delta "lo");
            content_block_delta 1 (text_delta "ld!");
            message_delta (VStr "end_turn") None]
           (CompleteResponse [Event 0 "" None; Event 1 "" None] "" (Some []))
           1 (Event 1 "" None)).
  - reflexivity.
  - unfold forward_indexed. repeat constructor; simpl; lia.
Defined.

Lemma output_tokens_of_Some u d :
  output_tokens_of u = Some d → dict_get u "output_tokens" (VInt 0) = VInt d.
Proof.
  unfold output_tokens_of.
  destruct (dict_get u "output_tokens" (VInt 0)); congruence.
Qed.

(** X4: [output_tokens] is a running total.  After any run of
    [message_delta] items whose usage objects carry integer [output_tokens]
    (or none, which counts as 0), applied to an accumulator whose usage
    holds an integer [output_tokens] (or none), the [output_tokens] of the
    usage is the count it had plus the sum of the counts of the items, and
    every other field of the usage is as it was. *)
Theorem X4_output_tokens_is_running_total
    (ds : list (pyval * dict string pyval)) (cr : complete_response)
    (existing : dict string pyval) (x : Z) :
  cr_usage cr = Some existing →
  output_tokens_of existing = Some x →
  Forall (λ d, is_Some (output_tokens_of d.2)) ds →
  ∃ usage',
    cr_usage (process_all (message_deltas ds) cr) = Some usage'
    ∧ dict_get usage' "output_tokens" (VInt 0) = VInt (x + sum_output_tokens ds)
    ∧ (ds ≠ [] → dict_lookup usage' "output_tokens"
                 = Some (VInt (x + sum_output_tokens ds)))
    ∧ ∀ k, k ≠ "output_tokens" → dict_lookup usage' k = dict_lookup existing k.
Proof.
  revert cr existing x.
  induction ds as [|[stop u] ds IH]; intros cr existing x Hcr Hx Hds.
  - exists existing. simpl. rewrite Z.add_0_r.
    split_and!; [done | by apply output_tokens_of_Some | done | done].
  - apply Forall_cons in Hds as [[d Hd] Hds]. simpl in Hd.
    change (process_all (message_deltas ((stop, u) :: ds)) cr)
      with (process_all (message_deltas ds)
              (_process_response_item (message_delta stop (Some u)) cr).1).
    set (cr1 := (_process_response_item (message_delta stop (Some u)) cr).1).
    assert (cr_usage cr1 = Some (dict_set existing "output_tokens" (VInt (d + x))))
      as Hcr1.
    { unfold cr1. rewrite process_response_item_fst. simpl. rewrite Hcr.
      rewrite (output_tokens_of_Some _ _ Hd), (output_tokens_of_Some _ _ Hx).
      done. }
    destruct (IH cr1 _ (d + x) Hcr1) as (usage' & Hu & Hget & Hlook & Hother);
      [|done|].
    { unfold output_tokens_of. by rewrite dict_get_set_eq. }
    exists usage'. cbn [sum_output_tokens foldr fst snd].
    fold (sum_output_tokens ds). rewrite Hd. cbn [default from_option id].
    replace (x + (d + sum_output_tokens ds)) with (d + x + sum_output_tokens ds)
      by lia.
    split_and!; [done | done | |].
    + intros _. destruct ds as [|d' ds]; [|by apply Hlook].
      simpl in Hu. rewrite Hcr1 in Hu. injection Hu as <-.
      simpl. rewrite Z.add_0_r. apply dict_lookup_set_eq.
    + intros k Hk. rewrite (Hother k Hk). by apply dict_lookup_set_ne.
Qed.

Lemma X4_output_tokens_is_running_total_witness :
  ∃ usage',
    cr_usage
      (process_all
         (message_deltas [(VNone, [("output_tokens", VInt 5)]);
                          (VStr "end_turn", [("output_tokens", VInt 7)]);
                          (VStr "end_turn", [])])
         (CompleteResponse [] "claude"
            (Some [("input_tokens", VInt 4); ("output_tokens", VInt 1)])))
    = Some usage'
    ∧ dict_get usage' "output_tokens" (VInt 0) = VInt (1 + 12)
    ∧ dict_lookup usage' "input_tokens" = Some (VInt 4).
Proof.
  destruct (X4_output_tokens_is_running_total
              [(VNone, [("output_tokens", VInt 5)]);
               (VStr "end_turn", [("output_tokens", VInt 7)]);
               (VStr "end_turn", [])]
              (CompleteResponse [] "claude"
                 (Some [("input_tokens", VInt 4); ("output_tokens", VInt 1)]))
              [("input_tokens", VInt 4); ("output_tokens", VInt 1)] 1)
    as (usage' & Hu & Hget & _ & Hother).
  - reflexivity.
  - reflexivity.
  - repeat constructor; by eexists.
  - exists usage'. split_and!; [exact Hu | exact Hget |].
    by rewrite (Hother "input_tokens").
Defined.

(** X5: a [message_delta] item whose [output_tokens] cannot be added to
    the running total, because the count of the item or the count of the
    accumulator is [None], still sets the finish reason on every slot; the
    usage is left as it was, and the [TypeError] of the addition is logged
    by the decorator instead of being raised. *)
Theorem X5_message_delta_with_None_count
    (stop_reason : pyval) (u existing : dict string pyval)
    (cr : complete_response) :
  cr_usage cr = Some existing →
  dict_get u "output_tokens" (VInt 0) = VNone
  ∨ dict_get existing "output_tokens" (VInt 0) = VNone →
  _process_response_item (message_delta stop_reason (Some u)) cr =
  (CompleteResponse (set_finish_reason stop_reason <$> cr_events cr)
     (cr_model cr) (Some existing),
   [DontThrowLogged "_process_response_item" TypeError]).
Proof.
  intros Hcr Hnone. unfold _process_response_item.
  cbn [process_response_item_body]. rewrite Hcr.
  assert (py_add (dict_get u "output_tokens" (VInt 0))
                 (dict_get existing "output_tokens" (VInt 0)) = inl TypeError)
    as ->; [|done].
  destruct Hnone as [-> | ->]; [done|].
  by destruct (dict_get u "output_tokens" (VInt 0)).
Qed.

Lemma X5_message_delta_with_None_count_witness :
  _process_response_item
    (message_delta (VStr "end_turn") (Some [("output_tokens", VNone)]))
    (CompleteResponse [Event 0 "Hi" None] "claude"
       (Some [("output_tokens", VInt 3)])) =
  (CompleteResponse [Event 0 "Hi" (Some (VStr "end_turn"))] "claude"
     (Some [("output_tokens", VInt 3)]),
   [DontThrowLogged "_process_response_item" TypeError]).
Proof.
  apply (X5_message_delta_with_None_count (VStr "end_turn")
           [("output_tokens", VNone)] [("output_tokens", VInt 3)]
           (CompleteResponse [Event 0 "Hi" None] "claude"
              (Some [("output_tokens", VInt 3)]))).
  - reflexivity.
  - left. reflexivity.
Defined.

(** * Further properties of the metrics emitter and the span finalizer *)

Lemma ret_bind {A B} (a : A) (k : A → M B) : ret a ≫= k = k a.
Proof. unfold ret. rewrite bind_return. by destruct (k a). Qed.

Lemma lift_bind {A B} (a : A) (k : A → M B) : lift (inr a) ≫= k = k a.
Proof. apply ret_bind. Qed.

Lemma bind_inr_inv {A B} (m : M A) (k : A → M B) (b : B) :
  (m ≫= k).2 = inr b →
  ∃ a, m.2 = inr a ∧ (k a).2 = inr b ∧ (m ≫= k).1 = m.1 ++ (k a).1.
Proof.
  destruct m as [t [e|a]]; [done|]. rewrite bind_return. eauto.
Qed.

Lemma filter_none (p : effect → bool) (t : list effect) :
  Forall (λ eff, p eff = false) t → List.filter p t = [].
Proof. induction 1 as [|eff t Heff _ IH]; simpl; [done | by rewrite Heff]. Qed.

Lemma filter_all (p : effect → bool) (t : list effect) :
  Forall (λ eff, p eff = true) t → List.filter p t = t.
Proof.
  induction 1 as [|eff t Heff _ IH]; simpl; [done | by rewrite Heff, IH].
Qed.

(** Skips a step that performs nothing of the kind [p] in a computation
    that returns normally. *)
Lemma filter_bind_skip {A B} p (m : M A) (k : A → M B) (b : B) R :
  Forall (λ eff, p eff = false) m.1 →
  (m ≫= k).2 = inr b →
  (∀ a, (k a).2 = inr b → List.filter p (k a).1 = R) →
  List.filter p (m ≫= k).1 = R.
Proof.
  intros Hm Hret Hk. destruct (bind_inr_inv m k b Hret) as (a & _ & Hka & ->).
  rewrite List.filter_app, (filter_none _ _ Hm). by apply Hk.
Qed.

Lemma for_each_perform_returns {A} (l : list A) (f : A → effect)
    (r : A → option exn) :
  (for_each l (λ x, perform (f x) (r x))).2 = inr tt →
  (for_each l (λ x, perform (f x) (r x))).1 = f <$> l.
Proof.
  induction l as [|x l IH]; [done|]. cbn [for_each]. intros Hret.
  destruct (bind_inr_inv _ _ _ Hret) as ([] & Hx & Hl & ->).
  rewrite (IH Hl). destruct (r x); [done|]. done.
Qed.

Lemma count_effects_bind_add {A B} p (m : M A) (k : A → M B) (n1 n2 : nat) :
  (count_effects p m.1 ≤ n1)%nat →
  (∀ a, (count_effects p (k a).1 ≤ n2)%nat) →
  (count_effects p (m ≫= k).1 ≤ n1 + n2)%nat.
Proof.
  intros Hm Hk. destruct m as [t [e|a]].
  - rewrite bind_raise. cbn [fst] in *. lia.
  - rewrite bind_return. cbn [fst] in *. rewrite count_effects_app.
    specialize (Hk a). lia.
Qed.

Lemma count_effects_nil p : count_effects p [] = 0%nat.
Proof. done. Qed.

(** Decomposes a goal [Forall P m.1] like [split_effects], keeping the
    equations of the case distinctions. *)
Ltac split_effects_eqn :=
  repeat first
    [ apply Forall_ret | apply Forall_raise | apply Forall_lift
    | apply Forall_nil_2
    | apply Forall_bind; [|intros ?]
    | apply Forall_try_except; [|intros ?]
    | apply Forall_for_each; intros ?
    | apply Forall_perform
    | match goal with
      | |- Forall _ (match ?x with _ => _ end).1 => destruct x eqn:?
      | |- Forall _ (if ?b then _ else _).1 => destruct b eqn:?
      end ].

(** X6: whatever the token counts, the accumulator and the collaborators,
    [_set_token_usage] gives the token histogram at most two observations,
    each of them a non-negative integer labelled with token type "input"
    or "output"; it records no other histogram observation (a count that
    is negative, [None] or not an integer is never recorded). *)
Theorem X6_token_histogram_gets_sound_observations
    (c : collaborators) (cr : complete_response)
    (prompt_tokens completion_tokens : pyval) (metric_attributes : attributes)
    (th : option (pyval → attributes → option exn))
    (cc : option (Z → attributes → option exn)) :
  let t := (_set_token_usage c cr prompt_tokens completion_tokens
              metric_attributes th cc).1 in
  Forall sound_token_record t
  ∧ (count_effects is_token_record t ≤ 2)%nat.
Proof.
  cbv zeta. split.
  - unfold _set_token_usage, call_set_span_attribute.
    split_effects_eqn; try done.
    + split_and!; [done | done |]. left. apply dict_lookup_set_eq.
    + split_and!; [done | done |]. right. apply dict_lookup_set_eq.
  - unfold _set_token_usage, call_set_span_attribute.
    do 3 (apply count_effects_bind_l; [constructor | intros ?]).
    do 6 (apply count_effects_bind_l; [by split_effects | intros ?]).
    apply (count_effects_bind_add _ _ _ 1 1).
    { destruct th; [|unfold count_effects; simpl; lia].
      destruct (is_nonneg_int _);
        [apply count_effects_perform | unfold count_effects; simpl; lia]. }
    intros _. apply count_effects_bind_r.
    { destruct th; [|unfold count_effects; simpl; lia].
      destruct (is_nonneg_int _);
        [apply count_effects_perform | unfold count_effects; simpl; lia]. }
    intros _. by split_effects.
Qed.

Lemma py_add_inl a b e : py_add a b = inl e → e = TypeError.
Proof. destruct a, b; simpl; congruence. Qed.

Lemma py_add_None_r a : py_add a VNone = inl TypeError.
Proof. by destruct a. Qed.

Lemma truthy_usage_Some cr usage :
  truthy_usage cr = Some usage → cr_usage cr = Some usage ∧ usage ≠ [].
Proof.
  unfold truthy_usage. destruct (cr_usage cr) as [[|kv u]|]; [done| |done].
  by intros [= <-].
Qed.

Lemma set_token_usage_None_cache c cr usage p q attrs th cc :
  cr_usage cr = Some usage →
  dict_lookup usage "cache_read_input_tokens" = Some VNone
  ∨ dict_lookup usage "cache_creation_input_tokens" = Some VNone →
  _set_token_usage c cr p q attrs th cc = ([], inl TypeError).
Proof.
  intros Hcr Hnone. unfold _set_token_usage. rewrite Hcr.
  cbn [default from_option id]. cbv zeta.
  destruct Hnone as [Hnone|Hnone].
  - assert (dict_get usage "cache_read_input_tokens" (VInt 0) = VNone) as ->
      by (unfold dict_get; by rewrite Hnone).
    by rewrite py_add_None_r.
  - assert (dict_get usage "cache_creation_input_tokens" (VInt 0) = VNone) as ->
      by (unfold dict_get; by rewrite Hnone).
    destruct (py_add p _) as [e|s] eqn:Hadd.
    + by rewrite (py_add_inl _ _ _ Hadd).
    + rewrite lift_bind. by rewrite py_add_None_r.
Qed.

(** X7: when the usage accumulated from the stream holds a cache count that
    is present but [None] ([cache_read_input_tokens] or
    [cache_creation_input_tokens]), token enrichment records nothing at
    all: no span attribute, no histogram observation, no choice-counter
    increment.  The [TypeError] of the addition is caught, one warning is
    logged, and the block returns normally, in both observers. *)
Theorem X7_None_cache_count_suppresses_token_usage
    (completion_tokens0 : option pyval) (c : collaborators)
    (cr : complete_response) (usage : dict string pyval)
    (metric_attributes : attributes) :
  truthy_usage cr = Some usage →
  dict_lookup usage "cache_read_input_tokens" = Some VNone
  ∨ dict_lookup usage "cache_creation_input_tokens" = Some VNone →
  enrich_token_usage completion_tokens0 c cr metric_attributes =
  ([LoggerWarning "Failed to set token usage, error: %s" TypeError], inr tt).
Proof.
  intros Husage Hnone. unfold enrich_token_usage. rewrite Husage.
  rewrite !ret_bind. unfold read_local. rewrite ret_bind.
  destruct (truthy_usage_Some _ _ Husage) as [Hcr _].
  by rewrite (set_token_usage_None_cache _ _ _ _ _ _ _ _ Hcr Hnone).
Qed.

Lemma X7_None_cache_count_suppresses_token_usage_witness :
  enrich_token_usage (Some (VInt (-1))) quiet
    (CompleteResponse [Event 0 "Hi" None] "claude"
       (Some [("input_tokens", VInt 4); ("output_tokens", VInt 2);
              ("cache_read_input_tokens", VNone)]))
    [] =
  ([LoggerWarning "Failed to set token usage, error: %s" TypeError], inr tt).
Proof.
  apply (X7_None_cache_count_suppresses_token_usage (Some (VInt (-1))) quiet
           (CompleteResponse [Event 0 "Hi" None] "claude"
              (Some [("input_tokens", VInt 4); ("output_tokens", VInt 2);
                     ("cache_read_input_tokens", VNone)]))
           [("input_tokens", VInt 4); ("output_tokens", VInt 2);
            ("cache_read_input_tokens", VNone)] []).
  - reflexivity.
  - left. reflexivity.
Defined.

(** X8: when [_set_token_usage] returns normally with a choice counter
    configured, the counter has been incremented by 1 exactly once per
    event slot, in the order of the slots, each increment tagged with the
    metric attributes and the finish reason of its slot ([None] for a slot
    that has none); with no slot there is no increment.  Without a choice
    counter nothing is ever counted. *)
Theorem X8_choice_counter_once_per_slot
    (c : collaborators) (cr : complete_response)
    (prompt_tokens completion_tokens : pyval) (metric_attributes : attributes)
    (th : option (pyval → attributes → option exn)) :
  (∀ add,
     (_set_token_usage c cr prompt_tokens completion_tokens
        metric_attributes th (Some add)).2 = inr tt →
     List.filter is_choice_add
       (_set_token_usage c cr prompt_tokens completion_tokens
          metric_attributes th (Some add)).1
     = choice_add metric_attributes <$> cr_events cr)
  ∧ Forall (λ eff, is_choice_add eff = false)
      (_set_token_usage c cr prompt_tokens completion_tokens
         metric_attributes th None).1.
Proof.
  split.
  - intros add. unfold _set_token_usage, call_set_span_attribute. intros Hret.
    do 11 (eapply filter_bind_skip;
           [by split_effects | exact Hret | clear Hret; intros ? Hret]).
    cbv zeta in Hret.
    pose proof (for_each_perform_returns (cr_events cr)
                  (choice_add metric_attributes)
                  (λ ev, add 1 (dict_set metric_attributes
                                  LLM_RESPONSE_FINISH_REASON
                                  (event_get_finish_reason ev))) Hret)
      as Htrace.
    etrans; [exact (f_equal (List.filter is_choice_add) Htrace)|].
    apply filter_all, Forall_fmap, Forall_true. done.
  - unfold _set_token_usage, call_set_span_attribute. by split_effects.
Qed.

Lemma X8_choice_counter_once_per_slot_witness :
  List.filter is_choice_add
    (_set_token_usage quiet
       (CompleteResponse [Event 0 "a" (Some (VStr "end_turn")); Event 1 "b" None]
          "claude" (Some []))
       (VInt 4) (VInt 2) [] None (Some (λ _ _, None))).1
  = choice_add []
    <$> [Event 0 "a" (Some (VStr "end_turn")); Event 1 "b" None].
Proof.
  apply (proj1 (X8_choice_counter_once_per_slot quiet
                  (CompleteResponse
                     [Event 0 "a" (Some (VStr "end_turn")); Event 1 "b" None]
                     "claude" (Some []))
                  (VInt 4) (VInt 2) [] None)).
  reflexivity.
Defined.

(** X9: the two ways of recording completions exclude each other.  With
    legacy attributes [_set_completions] adds no span event and sets no
    attribute other than the [finish_reason] and [content] attributes under
    [LLM_COMPLETIONS]; without them it sets no span attribute at all and
    adds only events named "completion".  This holds whatever the
    collaborators do, failures of theirs included. *)
Theorem X9_completion_modes_exclude_each_other
    (c : collaborators) (events : list event) :
  (Config_use_legacy_attributes c = true →
   Forall (λ eff, is_add_event eff = false
                  ∧ (is_set_attribute eff = true →
                     ∃ index field v,
                       eff = SetSpanAttribute (LLM_COMPLETIONS_field index field) v
                       ∧ (field = "finish_reason" ∨ field = "content")))
          (_set_completions c events).1)
  ∧ (Config_use_legacy_attributes c = false →
     Forall (λ eff, is_set_attribute eff = false
                    ∧ (is_add_event eff = true →
                       ∃ attrs, eff = SpanAddEvent "completion" attrs))
            (_set_completions c events).1).
Proof.
  split; intros Hmode; unfold _set_completions;
    (apply Forall_bind; [constructor | intros recording]);
    (destruct (negb recording || bool_decide (events = [])); [constructor|]);
    rewrite Hmode; unfold call_set_span_attribute, _emit_completion_event,
      logger_warning; split_effects; (split; [done|]); try done; intros _;
    first [ by eexists | do 3 eexists; split; [done | by (left + right)] ].
Qed.

Lemma X9_completion_modes_exclude_each_other_witness :
  Forall (λ eff, is_add_event eff = false
                 ∧ (is_set_attribute eff = true →
                    ∃ index field v,
                      eff = SetSpanAttribute (LLM_COMPLETIONS_field index field) v
                      ∧ (field = "finish_reason" ∨ field = "content")))
         (_set_completions quiet [Event 0 "Hello" (Some (VStr "end_turn"))]).1.
Proof.
  apply (proj1 (X9_completion_modes_exclude_each_other quiet
                  [Event 0 "Hello" (Some (VStr "end_turn"))])).
  reflexivity.
Defined.

Lemma for_each_returns_trace {A} (l : list A) (body : A → M unit)
    (f : A → list effect) :
  (∀ x, body x = (f x, inr tt)) → for_each l body = (l ≫= f, inr tt).
Proof.
  intros Hbody. induction l as [|x l IH]; [done|].
  cbn [for_each]. rewrite Hbody, bind_return, IH. done.
Qed.

Lemma imap_bind_singleton {A B C} (f : nat → A → B) (h : B → C) (l : list A) :
  imap f l ≫= (λ b, [h b]) = imap (λ i x, h (f i x)) l.
Proof.
  revert f. induction l as [|x l IH]; intros f; [done|].
  cbn [imap]. change ((f 0%nat x :: imap (f ∘ S) l) ≫= (λ b, [h b]))
    with (h (f 0%nat x) :: (imap (f ∘ S) l ≫= (λ b, [h b]))).
  by rewrite IH.
Qed.

Lemma emit_completion_event_accepted c (i : nat) (ev : event) :
  (∀ n a, span_add_event c n a = None) →
  _emit_completion_event c (VStr (ev_text ev)) (Z.of_nat i)
    (event_get_finish_reason ev) = ([completion_event i ev], inr tt).
Proof.
  intros Haccept. unfold _emit_completion_event, completion_event.
  cbv zeta. rewrite Haccept. unfold event_get_finish_reason.
  destruct (ev_finish_reason ev) as [[|z|s]|]; cbn [default from_option id truthy];
    try done.
  - destruct (Z.eqb_spec z 0) as [->|Hz]; cbn [negb].
    + by rewrite bool_decide_true.
    + by rewrite bool_decide_false.
  - destruct (String.eqb_spec s "") as [->|Hs]; cbn [negb].
    + by rewrite bool_decide_true.
    + by rewrite bool_decide_false.
Qed.

(** X10: what is recorded for the completions when the span is recording,
    there is at least one slot and the span accepts the calls.  With legacy
    attributes, for every slot in order, the attribute
    [<LLM_COMPLETIONS>.<index>.finish_reason] and then
    [<LLM_COMPLETIONS>.<index>.content], where [index] is the index the slot
    stores.  Without them, one "completion" event per slot in order,
    carrying the text, the position of the slot in the list (not the index
    it stores) and the finish reason, the latter only when the slot has one
    that is not empty. *)
Theorem X10_recorded_completions (c : collaborators) (events : list event) :
  span_is_recording c = inr true →
  events ≠ [] →
  (Config_use_legacy_attributes c = true →
   (∀ n v, set_span_attribute c n v = None) →
   _set_completions c events = (events ≫= legacy_completion, inr tt))
  ∧ (Config_use_legacy_attributes c = false →
     (∀ n a, span_add_event c n a = None) →
     _set_completions c events = (imap completion_event events, inr tt)).
Proof.
  intros Hrec Hevents.
  split; intros Hmode Haccept; unfold _set_completions;
    rewrite Hrec, lift_bind, Hmode, (bool_decide_false _ Hevents); cbn [negb orb].
  - rewrite (for_each_returns_trace _ _ legacy_completion); [done|].
    intros ev. unfold call_set_span_attribute. by rewrite !Haccept.
  - rewrite (for_each_returns_trace _ _ (λ p, [completion_event p.1 p.2])).
    + cbn [try_except]. by rewrite (imap_bind_singleton _ (λ p, completion_event p.1 p.2)).
    + intros [i ev]. by apply emit_completion_event_accepted.
Qed.

Lemma X10_recorded_completions_witness :
  _set_completions quiet
    [Event 5 "Hello" (Some (VStr "end_turn")); Event 1 "World!" None] =
  ([Event 5 "Hello" (Some (VStr "end_turn")); Event 1 "World!" None]
     ≫= legacy_completion, inr tt)
  ∧ _set_completions (without_legacy_attributes quiet)
      [Event 5 "Hello" (Some (VStr "end_turn")); Event 1 "World!" None] =
    (imap completion_event
       [Event 5 "Hello" (Some (VStr "end_turn")); Event 1 "World!" None],
     inr tt).
Proof.
  split.
  - apply (proj1 (X10_recorded_completions quiet
                    [Event 5 "Hello" (Some (VStr "end_turn"));
                     Event 1 "World!" None]
                    eq_refl ltac:(done))).
    + reflexivity.
    + reflexivity.
  - apply (proj2 (X10_recorded_completions (without_legacy_attributes quiet)
                    [Event 5 "Hello" (Some (VStr "end_turn"));
                     Event 1 "World!" None]
                    eq_refl ltac:(done))).
    + reflexivity.
    + reflexivity.
Defined.

Lemma count_effects_try_except {A} p (body : M A) (handler : exn → M A)
    (n : nat) :
  Forall (λ eff, p eff = false) body.1 →
  (∀ e, (count_effects p (handler e).1 ≤ n)%nat) →
  (count_effects p (try_except body handler).1 ≤ n)%nat.
Proof.
  intros Hbody Hh. destruct body as [t [e|a]]; cbn [try_except fst] in *.
  - destruct (exn_is_Exception e).
    + specialize (Hh e). destruct (handler e) as [t' r]. cbn [fst] in *.
      rewrite count_effects_app, (count_effects_none _ t) by done. lia.
    + rewrite (count_effects_none _ t) by done. lia.
  - rewrite (count_effects_none _ t) by done. lia.
Qed.

(** X11: recording the completions is best effort, up to the first call.
    A failure of [span.is_recording()] is not caught: it leaves
    [_set_completions] before anything is recorded.  Once that call has
    returned, an [Exception] raised while setting an attribute or adding an
    event is caught: [_set_completions] returns normally, having logged at
    most one warning. *)
Theorem X11_set_completions_is_best_effort
    (c : collaborators) (events : list event) :
  (∀ e, span_is_recording c = inl e →
        _set_completions c events = ([], inl e))
  ∧ (∀ recording,
       span_is_recording c = inr recording →
       (∀ n v e, set_span_attribute c n v = Some e → is_Exception e) →
       (∀ n a e, span_add_event c n a = Some e → is_Exception e) →
       (_set_completions c events).2 = inr tt
       ∧ (count_effects is_warning (_set_completions c events).1 ≤ 1)%nat).
Proof.
  split.
  - intros e He. unfold _set_completions. by rewrite He.
  - intros recording Hrec Hattr Hevent. unfold _set_completions.
    rewrite Hrec, lift_bind.
    destruct (negb recording || bool_decide (events = []));
      [split; [done | unfold count_effects; simpl; lia]|].
    destruct (Config_use_legacy_attributes c); split.
    + apply try_except_logged_returns. unfold call_set_span_attribute.
      split_raises; eauto.
    + apply count_effects_try_except;
        [unfold call_set_span_attribute; by split_effects
        | intros e; apply count_effects_perform].
    + apply try_except_logged_returns. unfold _emit_completion_event.
      split_raises; eauto.
    + apply count_effects_try_except;
        [unfold _emit_completion_event; by split_effects
        | intros e; apply count_effects_perform].
Qed.

Lemma X11_set_completions_is_best_effort_witness :
  (_set_completions quiet [Event 0 "Hello" None]).2 = inr tt
  ∧ (count_effects is_warning (_set_completions quiet [Event 0 "Hello" None]).1
     ≤ 1)%nat.
Proof.
  apply (proj2 (X11_set_completions_is_best_effort quiet [Event 0 "Hello" None])
           true).
  - reflexivity.
  - intros n v e He. simpl in He. discriminate.
  - intros n a e He. simpl in He. discriminate.
Defined.

(** * Further properties of the observers *)

(** What holds of every effect of the classifier's decorator, of the
    handler around the forward and of the statements after the loop holds
    of every effect of a stream, whatever the consumer does. *)
Section PerformedForall.
Variable completion_tokens0 : option pyval.
Variable c : collaborators.
Variable P : effect → Prop.
Hypothesis Hlog : ∀ func e, P (DontThrowLogged func e).
Hypothesis Hexc : ∀ attrs, P (CounterAdd ExceptionCounter 1 attrs).
Hypothesis Hfin : ∀ cr, Forall P (finalize completion_tokens0 c cr).1.

Lemma process_response_item_Forall it cr :
  Forall P (_process_response_item it cr).2.
Proof.
  eapply Forall_impl; [apply process_response_item_log|].
  by intros eff (func & e & ->).
Qed.

Lemma pull_Forall response cr :
  Forall P (pull completion_tokens0 c response cr).2.
Proof.
  unfold pull. destruct (src_items response); [|constructor].
  destruct (src_end response); [constructor|].
  pose proof (Hfin cr) as H.
  by destruct (finalize completion_tokens0 c cr).
Qed.

Lemma on_exception_Forall e :
  Forall P (leaving (try_except (raise e) (on_exception c))).1.
Proof.
  assert (Forall P (try_except (raise e) (on_exception c)).1) as H.
  { unfold on_exception. by split_effects. }
  by destruct (try_except (raise e) (on_exception c)) as [t [e'|[]]].
Qed.

Lemma resume_Forall g cmd :
  Forall P (resume completion_tokens0 c g cmd).2.
Proof.
  destruct g as [response|it response cr|], cmd as [|e|]; cbn [resume snd];
    try constructor.
  - apply pull_Forall.
  - pose proof (process_response_item_Forall it cr) as Hitem.
    destruct (_process_response_item it cr) as [cr' t].
    pose proof (pull_Forall response cr') as Hpull.
    destruct (pull completion_tokens0 c response cr') as [[g' s] t']. simpl in *.
    apply Forall_app. by split.
  - pose proof (on_exception_Forall e) as H.
    by destruct (leaving _).
Qed.

Lemma performed_Forall cmds : ∀ g,
  Forall P (performed (resume completion_tokens0 c) g cmds).
Proof.
  unfold performed.
  induction cmds as [|cmd cmds IH]; intros g; cbn [drive]; [constructor|].
  pose proof (resume_Forall g cmd) as Hstep.
  destruct (resume completion_tokens0 c g cmd) as [[g' s] t].
  specialize (IH g').
  destruct (drive (resume completion_tokens0 c) g' cmds) as [[ss t'] g''].
  simpl in *. apply Forall_app. by split.
Qed.
End PerformedForall.

Lemma set_completions_not_recording c events :
  span_is_recording c ≠ inr true →
  Forall (λ eff, completion_effect eff = false) (_set_completions c events).1.
Proof.
  intros Hrec. unfold _set_completions.
  destruct (span_is_recording c) as [e|[|]]; [constructor | done | constructor].
Qed.

(** X12: completion content is recorded only when [should_send_prompts()]
    returns [True] and the span is recording.  If either call returns
    [False] (or raises), no stream of either observer sets an attribute
    under [LLM_COMPLETIONS] or adds a span event, whatever the stream holds
    and whatever the consumer does. *)
Theorem X12_no_completions_unless_enabled_and_recording
    (completion_tokens0 : option pyval) (c : collaborators)
    (g : generator) (cmds : list command) :
  should_send_prompts c ≠ inr true ∨ span_is_recording c ≠ inr true →
  Forall (λ eff, completion_effect eff = false)
         (performed (resume completion_tokens0 c) g cmds).
Proof.
  intros Hoff. apply performed_Forall; [done | done |].
  intros cr. unfold finalize.
  apply Forall_bind; [constructor | intros attrs].
  apply Forall_bind; [unfold record_duration; by split_effects | intros _].
  apply Forall_bind.
  { destruct (Config_enrich_token_usage c); [|constructor].
    unfold enrich_token_usage, _set_token_usage, call_set_span_attribute,
      read_local, logger_warning.
    by split_effects. }
  intros _. destruct (should_send_prompts c) as [e|send] eqn:Hs.
  { unfold lift. rewrite bind_raise. constructor. }
  rewrite lift_bind. apply Forall_bind; [|intros _; by split_effects].
  destruct send; [|constructor].
  destruct Hoff as [Hsend|Hrec]; [done|].
  by apply set_completions_not_recording.
Qed.

Lemma X12_no_completions_unless_enabled_and_recording_witness :
  Forall (λ eff, completion_effect eff = false)
         (performed (resume (Some (VInt (-1))) (with_send_prompts (inr false) quiet))
            (build_from_streaming_response (Source hello_stream None))
            [Next; Next; Next; Next; Next; Next; Next]).
Proof.
  apply (X12_no_completions_unless_enabled_and_recording (Some (VInt (-1)))
           (with_send_prompts (inr false) quiet)).
  left. simpl. discriminate.
Defined.

(** ** Consumers that stop early, throw or close *)

Lemma inner_effect_exception_add attrs :
  inner_effect (CounterAdd ExceptionCounter 1 attrs).
Proof. done. Qed.

Lemma on_exception_inner c e :
  Forall inner_effect (leaving (try_except (raise e) (on_exception c))).1.
Proof.
  assert (Forall inner_effect (try_except (raise e) (on_exception c)).1) as H.
  { unfold on_exception. by split_effects. }
  by destruct (try_except (raise e) (on_exception c)) as [t [e'|[]]].
Qed.

Lemma performed_finished completion_tokens0 c cmds :
  performed (resume completion_tokens0 c) Finished cmds = [].
Proof. unfold performed. by rewrite drive_finished. Qed.

Lemma performed_cons completion_tokens0 c g cmd cmds :
  performed (resume completion_tokens0 c) g (cmd :: cmds) =
  (resume completion_tokens0 c g cmd).2
  ++ performed (resume completion_tokens0 c)
       (resume completion_tokens0 c g cmd).1.1 cmds.
Proof.
  unfold performed. cbn [drive].
  destruct (resume completion_tokens0 c g cmd) as [[g' s] t]. cbn [fst snd].
  by destruct (drive (resume completion_tokens0 c) g' cmds) as [[ss t'] g''].
Qed.

Lemma early_stop_inner completion_tokens0 c cmds : ∀ g,
  (∀ items, items_left g = Some items → (length cmds ≤ length items)%nat) →
  Forall inner_effect (performed (resume completion_tokens0 c) g cmds).
Proof.
  induction cmds as [|cmd cmds IH]; intros g Hleft; [constructor|].
  rewrite performed_cons. apply Forall_app.
  destruct g as [[items e]|it [items e] cr|].
  - specialize (Hleft items eq_refl). destruct cmd as [|e'|]; cbn [resume];
      try (cbn; rewrite performed_finished; by split).
    destruct items as [|x items]; [cbn in Hleft; lia|].
    cbn. split; [constructor|]. apply IH. intros items' [= <-].
    cbn in Hleft. lia.
  - specialize (Hleft items eq_refl). destruct cmd as [|e'|]; cbn [resume].
    + destruct items as [|x items]; [cbn in Hleft; lia|].
      pose proof (process_response_item_log it cr) as Hlog.
      destruct (_process_response_item it cr) as [cr' t]. cbn.
      split.
      * rewrite app_nil_r. eapply Forall_impl; [done|].
        apply inner_effect_decorator.
      * apply IH. intros items' [= <-]. cbn in Hleft. lia.
    + pose proof (on_exception_inner c e') as Hexc.
      destruct (leaving _) as [t e'']. cbn.
      rewrite performed_finished. by split.
    + cbn. rewrite performed_finished. by split.
  - destruct cmd; cbn; rewrite performed_finished; by split.
Qed.

(** X13: finalization never runs before the consumer has pulled past the
    last item.  A consumer that resumes the generator at most as many times
    as the source has items, by [next], [throw] or [close] in any order,
    causes no duration record, no [span.set_status] and no [span.end]: a
    stream that is abandoned, closed or aborted early leaves its span open,
    in both observers. *)
Theorem X13_no_finalization_before_exhaustion
    (completion_tokens0 : option pyval) (c : collaborators)
    (response : source) (cmds : list command) :
  (length cmds ≤ length (src_items response))%nat →
  let t := performed (resume completion_tokens0 c) (Created response) cmds in
  count_effects is_duration_record t = 0%nat
  ∧ count_effects is_set_status t = 0%nat
  ∧ count_effects is_span_end t = 0%nat.
Proof.
  intros Hlen. cbv zeta.
  assert (Forall inner_effect
            (performed (resume completion_tokens0 c) (Created response) cmds))
    as Hinner.
  { apply early_stop_inner. by intros items [= <-]. }
  split_and!.
  - by apply (count_effects_inner _ _ inner_not_duration_record).
  - by apply (count_effects_inner _ _ inner_not_set_status).
  - by apply (count_effects_inner _ _ inner_not_span_end).
Qed.

Lemma X13_no_finalization_before_exhaustion_witness :
  let t := performed (resume (Some (VInt (-1))) quiet)
             (Created (Source hello_stream None))
             [Next; Next; Next; Close; Next; Next] in
  count_effects is_duration_record t = 0%nat
  ∧ count_effects is_set_status t = 0%nat
  ∧ count_effects is_span_end t = 0%nat.
Proof.
  apply (X13_no_finalization_before_exhaustion (Some (VInt (-1))) quiet
           (Source hello_stream None) [Next; Next; Next; Close; Next; Next]).
  simpl. lia.
Defined.

Lemma signalled_cons completion_tokens0 c g cmd cmds :
  signalled (resume completion_tokens0 c) g (cmd :: cmds) =
  (resume completion_tokens0 c g cmd).1.2
  :: signalled (resume completion_tokens0 c)
       (resume completion_tokens0 c g cmd).1.1 cmds.
Proof.
  unfold signalled. cbn [drive].
  destruct (resume completion_tokens0 c g cmd) as [[g' s] t]. cbn [fst snd].
  by destruct (drive (resume completion_tokens0 c) g' cmds) as [[ss t'] g''].
Qed.

Lemma yielded_finished completion_tokens0 c cmds :
  yielded (signalled (resume completion_tokens0 c) Finished cmds) = [].
Proof.
  unfold signalled. rewrite drive_finished. cbn [fst].
  induction cmds as [|[|e|] cmds IH]; by cbn.
Qed.

Lemma yielded_prefix completion_tokens0 c cmds : ∀ g,
  yielded (signalled (resume completion_tokens0 c) g cmds)
  `prefix_of` default [] (items_left g).
Proof.
  induction cmds as [|cmd cmds IH]; intros g; [apply prefix_nil|].
  rewrite signalled_cons.
  destruct g as [[items e]|it [items e] cr|].
  - destruct cmd as [|e'|]; cbn [resume];
      try (cbn; rewrite yielded_finished; apply prefix_nil).
    destruct items as [|x items].
    + cbn [pull src_items src_end].
      destruct e as [e|]; [cbn; rewrite yielded_finished; apply prefix_nil|].
      destruct (finalize _ _ _) as [t [e0|[]]]; cbn;
        rewrite yielded_finished; apply prefix_nil.
    + cbn. apply prefix_cons. apply (IH (Suspended x (Source items e) _)).
  - destruct cmd as [|e'|]; cbn [resume].
    + destruct (_process_response_item it cr) as [cr' t].
      destruct items as [|x items].
      * cbn [pull src_items src_end].
        destruct e as [e|]; [cbn; rewrite yielded_finished; apply prefix_nil|].
        destruct (finalize _ _ _) as [t0 [e0|[]]]; cbn;
          rewrite yielded_finished; apply prefix_nil.
      * cbn. apply prefix_cons. apply (IH (Suspended x (Source items e) _)).
    + destruct (leaving _) as [t e'']. cbn.
      rewrite yielded_finished. apply prefix_nil.
    + cbn. rewrite yielded_finished. apply prefix_nil.
  - destruct cmd; cbn; rewrite yielded_finished; apply prefix_nil.
Qed.

(** X14: whatever the consumer does to the generator ([next], [throw] and
    [close] in any order and number) and whatever the collaborators do, the
    items it is handed are the first items of the source, unchanged and in
    order: the observers never invent, repeat, reorder or skip an item. *)
Theorem X14_yielded_items_are_a_prefix_of_the_source
    (completion_tokens0 : option pyval) (c : collaborators)
    (response : source) (cmds : list command) :
  yielded (signalled (resume completion_tokens0 c) (Created response) cmds)
  `prefix_of` src_items response.
Proof. apply (yielded_prefix completion_tokens0 c cmds (Created response)). Qed.

(** ** The error counter over a whole stream *)

Lemma finalize_no_exception_add completion_tokens0 c cr :
  Forall (λ eff, is_exception_add eff = false)
         (finalize completion_tokens0 c cr).1.
Proof.
  unfold finalize, record_duration, enrich_token_usage, _set_token_usage,
    _set_completions, call_set_span_attribute, _emit_completion_event,
    read_local, logger_warning.
  by split_effects.
Qed.

Lemma resume_no_exception_add completion_tokens0 c g cmd :
  is_throw cmd = false →
  Forall (λ eff, is_exception_add eff = false)
         (resume completion_tokens0 c g cmd).2.
Proof.
  intros Hcmd.
  destruct g as [response|it response cr|], cmd as [|e|]; try done;
    cbn [resume snd]; try constructor.
  - apply pull_Forall. apply finalize_no_exception_add.
  - pose proof (process_response_item_Forall
                  (λ eff, is_exception_add eff = false)
                  ltac:(done) it cr) as Hitem.
    destruct (_process_response_item it cr) as [cr' t].
    pose proof (pull_Forall completion_tokens0 c
                  (λ eff, is_exception_add eff = false)
                  (finalize_no_exception_add completion_tokens0 c)
                  response cr') as Hpull.
    destruct (pull completion_tokens0 c response cr') as [[g' s] t']. simpl in *.
    apply Forall_app. by split.
Qed.

Lemma on_exception_counts_once c e :
  (count_effects is_exception_add
     (leaving (try_except (raise e) (on_exception c))).1 ≤ 1)%nat.
Proof.
  assert (count_effects is_exception_add
            (try_except (raise e) (on_exception c)).1 ≤ 1)%nat as H.
  { apply count_effects_try_except; [constructor | intros e'].
    unfold on_exception.
    apply count_effects_bind_l; [constructor | intros attrs].
    apply count_effects_bind_r; [|intros _; constructor].
    destruct (exception_counter c);
      [apply count_effects_perform | unfold count_effects; simpl; lia]. }
  by destruct (try_except (raise e) (on_exception c)) as [t [e'|[]]].
Qed.

Lemma throw_finishes completion_tokens0 c g e :
  (resume completion_tokens0 c g (Throw e)).1.1 = Finished.
Proof.
  destruct g as [response|it response cr|]; cbn [resume]; try done.
  by destruct (leaving _).
Qed.

(** X15: over a whole stream the error counter is incremented at most
    once, whatever the consumer and the collaborators do, and it is not
    incremented at all unless the consumer throws an exception into the
    generator: pulling items to the end, a failing source, failing
    telemetry and closing the generator never count as an error. *)
Theorem X15_error_counter_at_most_once
    (completion_tokens0 : option pyval) (c : collaborators)
    (g : generator) (cmds : list command) :
  (count_effects is_exception_add
     (performed (resume completion_tokens0 c) g cmds) ≤ 1)%nat
  ∧ (Forall (λ cmd, is_throw cmd = false) cmds →
     count_effects is_exception_add
       (performed (resume completion_tokens0 c) g cmds) = 0%nat).
Proof.
  split.
  - revert g. induction cmds as [|cmd cmds IH]; intros g;
      [unfold performed, count_effects; simpl; lia|].
    rewrite performed_cons, count_effects_app.
    destruct (is_throw cmd) eqn:Hcmd.
    + destruct cmd as [|e|]; try done.
      rewrite throw_finishes, performed_finished.
      destruct g as [response|it response cr|]; cbn [resume snd];
        try (unfold count_effects; simpl; lia).
      pose proof (on_exception_counts_once c e) as Hone.
      destruct (leaving _) as [t e']. cbn [fst snd] in *.
      unfold count_effects at 2. simpl. lia.
    + rewrite (count_effects_none _ _
                 (resume_no_exception_add completion_tokens0 c g cmd Hcmd)).
      apply IH.
  - revert g. induction cmds as [|cmd cmds IH]; intros g Hcmds; [done|].
    apply Forall_cons in Hcmds as [Hcmd Hcmds].
    rewrite performed_cons, count_effects_app.
    rewrite (count_effects_none _ _
               (resume_no_exception_add completion_tokens0 c g cmd Hcmd)).
    by apply IH.
Qed.

Lemma X15_error_counter_at_most_once_witness :
  count_effects is_exception_add
    (performed (resume (Some (VInt (-1))) quiet)
       (Created (Source hello_stream (Some (Exn "APIConnectionError" true))))
       [Next; Next; Next; Next; Next; Next; Next; Close; Next]) = 0%nat.
Proof.
  apply (proj2 (X15_error_counter_at_most_once (Some (VInt (-1))) quiet
                  (Created (Source hello_stream
                              (Some (Exn "APIConnectionError" true))))
                  [Next; Next; Next; Next; Next; Next; Next; Close; Next])).
  repeat constructor.
Defined.

(** ** The asynchronous observer *)



(** X17: the asynchronous observer finalizes once as well.  For a source
    consumed to normal exhaustion and orderly collaborators, the consumer
    reaches [StopIteration] and the stream holds exactly one duration
    record when a duration histogram is configured (none otherwise),
    exactly one [set_status], which is the OK one, and exactly one [end],
    the status and the end being the last two effects of the stream; this
    also holds when token enrichment fails on the unassigned
    [completion_tokens]. *)
Theorem X17_async_finalization_runs_once
    (c : collaborators) (items : list item) (fuel : nat) :
  (length items < fuel)%nat →
  orderly c →
  let r := consume (abuild_resume c) fuel
             (abuild_from_streaming_response (Source items None)) in
  ending r = Some StopIteration
  ∧ (∃ t, telemetry r = t ++ [SpanSetStatus StatusOK; SpanEnd])
  ∧ count_effects is_duration_record (telemetry r) =
      match duration_histogram c with Some _ => 1 | None => 0 end%nat
  ∧ count_effects is_set_status (telemetry r) = 1%nat
  ∧ count_effects is_set_status_ok (telemetry r) = 1%nat
  ∧ count_effects is_span_end (telemetry r) = 1%nat.
Proof.
  intros Hfuel Hc. cbv zeta.
  unfold abuild_resume, abuild_from_streaming_response.
  rewrite consume_created by done.
  set (cr := process_all items initial_response).
  pose proof (process_log_inner items initial_response) as Hlog.
  destruct (shared_returns c Hc cr) as [attrs Hshared].
  destruct (send_returns c Hc) as [send Hsend].
  unfold conclusion.
  rewrite (finalize_orderly c Hc _ cr attrs send Hshared Hsend).
  cbn [fst snd received ending telemetry final].
  pose proof (enrich_token_usage_inner None c cr attrs) as Henrich.
  pose proof (set_completions_inner c (cr_events cr)) as Hcompl.
  assert (Forall inner_effect
            (if Config_enrich_token_usage c
             then (enrich_token_usage None c cr attrs).1 else []))
    as Henrich'
    by (destruct (Config_enrich_token_usage c); [done | constructor]).
  assert (Forall inner_effect
            (if send then (_set_completions c (cr_events cr)).1 else []))
    as Hcompl' by (destruct send; [done | constructor]).
  rewrite (record_duration_orderly c Hc attrs). cbn [fst].
  split_and!; try done.
  - eexists. by rewrite !app_assoc.
  - rewrite !count_effects_app.
    rewrite (count_effects_inner _ _ inner_not_duration_record Hlog).
    rewrite (count_effects_inner _ _ inner_not_duration_record Henrich').
    rewrite (count_effects_inner _ _ inner_not_duration_record Hcompl').
    by destruct (duration_histogram c).
  - rewrite !count_effects_app.
    rewrite (count_effects_inner _ _ inner_not_set_status Hlog).
    rewrite (count_effects_inner _ _ inner_not_set_status Henrich').
    rewrite (count_effects_inner _ _ inner_not_set_status Hcompl').
    by destruct (duration_histogram c).
  - rewrite !count_effects_app.
    rewrite (count_effects_inner _ _ inner_not_set_status_ok Hlog).
    rewrite (count_effects_inner _ _ inner_not_set_status_ok Henrich').
    rewrite (count_effects_inner _ _ inner_not_set_status_ok Hcompl').
    by destruct (duration_histogram c).
  - rewrite !count_effects_app.
    rewrite (count_effects_inner _ _ inner_not_span_end Hlog).
    rewrite (count_effects_inner _ _ inner_not_span_end Henrich').
    rewrite (count_effects_inner _ _ inner_not_span_end Hcompl').
    by destruct (duration_histogram c).
Qed.

Lemma X17_async_finalization_runs_once_witness :
  let r := consume (abuild_resume quiet) 1
             (abuild_from_streaming_response (Source [] None)) in
  ending r = Some StopIteration
  ∧ (∃ t, telemetry r = t ++ [SpanSetStatus StatusOK; SpanEnd])
  ∧ count_effects is_duration_record (telemetry r) = 1%nat
  ∧ count_effects is_set_status (telemetry r) = 1%nat
  ∧ count_effects is_set_status_ok (telemetry r) = 1%nat
  ∧ count_effects is_span_end (telemetry r) = 1%nat.
Proof.
  apply (X17_async_finalization_runs_once quiet [] 1).
  - simpl. lia.
  - split; simpl; intros; simplify_eq; eauto.
Defined.

(** ** The two observers compared *)





Lemma truthy_usage_None cr :
  truthy_usage cr = None → default [] (cr_usage cr) = [].
Proof. unfold truthy_usage. by destruct (cr_usage cr) as [[|kv u]|]. Qed.

(** X19: where the two observers part.  On an accumulator with no usage
    (the usage key absent or the usage empty) and with no slot or no model,
    with a prompt count [z] obtained from the request and a span that
    accepts attributes, token enrichment of the synchronous observer sets
    the usage attributes with a completion count of -1: prompt tokens [z],
    completion tokens -1, total tokens [z - 1], the model and two cache
    counts of 0.  Token enrichment of the asynchronous observer sets
    nothing: it logs the [UnboundLocalError] of [completion_tokens] and
    returns. *)
Theorem X19_observers_part_without_usage
    (c : collaborators) (cr : complete_response)
    (metric_attributes : attributes) (z : Z) :
  truthy_usage cr = None →
  cr_events cr = [] ∨ cr_model cr = "" →
  count_prompt_tokens_from_request c = inr (VInt z) →
  (∀ n v, set_span_attribute c n v = None) →
  [ SetSpanAttribute LLM_USAGE_PROMPT_TOKENS (VInt z);
    SetSpanAttribute LLM_USAGE_COMPLETION_TOKENS (VInt (-1));
    SetSpanAttribute LLM_USAGE_TOTAL_TOKENS (VInt (z - 1));
    SetSpanAttribute LLM_RESPONSE_MODEL (VStr (cr_model cr));
    SetSpanAttribute LLM_USAGE_CACHE_READ_INPUT_TOKENS (VInt 0);
    SetSpanAttribute LLM_USAGE_CACHE_CREATION_INPUT_TOKENS (VInt 0) ]
  `prefix_of`
    (enrich_token_usage (Some (VInt (-1))) c cr metric_attributes).1
  ∧ enrich_token_usage None c cr metric_attributes =
    ([LoggerWarning "Failed to set token usage, error: %s" UnboundLocalError],
     inr tt).
Proof.
  intros Husage Hempty Hprompt Haccept.
  assert (∀ ct0 : option pyval,
            (if bool_decide (cr_events cr = []) then ret ct0
             else if truthy (VStr (cr_model cr))
                  then n ← lift (count_tokens c
                                   (foldl (λ acc ev, acc +:+ ev_text ev) ""
                                      (cr_events cr)));
                       ret (Some n)
                  else ret ct0) = ret ct0) as Hlocal.
  { intros ct0. destruct Hempty as [-> | ->]; [done|].
    by destruct (bool_decide _). }
  split.
  - unfold enrich_token_usage. rewrite Husage, Hprompt, lift_bind.
    cbv zeta. rewrite Hlocal, ret_bind. unfold read_local. rewrite ret_bind.
    unfold _set_token_usage. rewrite (truthy_usage_None _ Husage).
    cbv zeta. unfold dict_get. cbn [dict_lookup default from_option id py_add].
    unfold call_set_span_attribute.
    repeat first [ progress cbn [py_add perform]
                 | rewrite lift_bind | rewrite Haccept | rewrite bind_return ].
    cbn [fst snd app].
    replace (z + 0 + 0) with z by lia.
    replace (z + -1) with (z - 1) by lia.
    match goal with |- context [try_except (_, ?r)] => destruct r as [e|[]] end;
      cbn [try_except]; [destruct (exn_is_Exception e)|]; cbn [fst];
      by eexists.
  - unfold enrich_token_usage. rewrite Husage, Hprompt, lift_bind.
    cbv zeta. rewrite Hlocal, ret_bind. done.
Qed.

Lemma X19_observers_part_without_usage_witness :
  [ SetSpanAttribute LLM_USAGE_PROMPT_TOKENS (VInt 10);
    SetSpanAttribute LLM_USAGE_COMPLETION_TOKENS (VInt (-1));
    SetSpanAttribute LLM_USAGE_TOTAL_TOKENS (VInt (10 - 1));
    SetSpanAttribute LLM_RESPONSE_MODEL (VStr "");
    SetSpanAttribute LLM_USAGE_CACHE_READ_INPUT_TOKENS (VInt 0);
    SetSpanAttribute LLM_USAGE_CACHE_CREATION_INPUT_TOKENS (VInt 0) ]
  `prefix_of`
    (enrich_token_usage (Some (VInt (-1))) quiet
       (CompleteResponse [Event 0 "Hi" None] "" (Some [])) []).1
  ∧ enrich_token_usage None quiet
      (CompleteResponse [Event 0 "Hi" None] "" (Some [])) [] =
    ([LoggerWarning "Failed to set token usage, error: %s" UnboundLocalError],
     inr tt).
Proof.
  apply (X19_observers_part_without_usage quiet
           (CompleteResponse [Event 0 "Hi" None] "" (Some [])) [] 10).
  - reflexivity.
  - right. reflexivity.
  - reflexivity.
  - reflexivity.
Defined.

(** X20: usage reported by the stream takes precedence over counting.  On
    an exhausted stream that has accumulated a non-empty usage, neither
    [count_prompt_tokens_from_request] nor [instance.count_tokens] has any
    bearing on what the consumer gets or on the telemetry: replacing them
    by any other counters, failing ones included, changes nothing. *)
Theorem X20_token_counters_unused_when_usage_reported
    (completion_tokens0 : option pyval) (c : collaborators)
    (prompt_counter : exn + pyval) (token_counter : string → exn + pyval)
    (items : list item) (fuel : nat) :
  (length items < fuel)%nat →
  is_Some (truthy_usage (process_all items initial_response)) →
  consume (resume completion_tokens0
             (with_token_counters prompt_counter token_counter c))
    fuel (Created (Source items None)) =
  consume (resume completion_tokens0 c) fuel (Created (Source items None)).
Proof.
  intros Hfuel [usage Husage]. rewrite !consume_created by done.
  unfold conclusion, finalize, enrich_token_usage. by rewrite Husage.
Qed.

Lemma X20_token_counters_unused_when_usage_reported_witness :
  consume (resume (Some (VInt (-1)))
             (with_token_counters (inl (Exn "RuntimeError" true))
                (λ _, inl (Exn "RuntimeError" true)) quiet))
    7 (Created (Source hello_stream None)) =
  consume (resume (Some (VInt (-1))) quiet) 7 (Created (Source hello_stream None)).
Proof.
  apply (X20_token_counters_unused_when_usage_reported (Some (VInt (-1))) quiet
           (inl (Exn "RuntimeError" true)) (λ _, inl (Exn "RuntimeError" true))
           hello_stream 7).
  - simpl. lia.
  - by eexists.
Defined.

(** ** The handler around the forward of an item *)

(** X21: an instance of [Exception] that the consumer throws into the
    synchronous observer while it is suspended at the forward of an item is
    caught by the handler of lines 157-161: the error attributes are
    computed from it, the error counter (when one is configured) is
    incremented once with them, and the exception is raised again.  It
    leaves the generator, which is finished without the span having a
    status or an end, and reaches the consumer as it is, or as a
    [RuntimeError] when it is a [StopIteration]. *)
Theorem X21_thrown_exception_is_counted_and_reraised
    (c : collaborators) (it : item) (response : source)
    (cr : complete_response) (e : exn) (attrs : attributes) :
  is_Exception e →
  error_metrics_attributes c e = inr attrs →
  (∀ add, exception_counter c = Some add → add 1 attrs = None) →
  build_resume c (Suspended it response cr) (Throw e) =
  (Finished, Raised (escaping e),
   match exception_counter c with
   | Some _ => [CounterAdd ExceptionCounter 1 attrs]
   | None => []
   end).
Proof.
  intros He Hattrs Hadd.
  unfold build_resume. cbn [resume]. unfold try_except, raise, on_exception.
  rewrite He, Hattrs. unfold lift. rewrite bind_return. cbn [fst snd app].
  destruct (exception_counter c) as [add|]; [|done].
  by rewrite (Hadd add eq_refl).
Qed.

Lemma X21_thrown_exception_is_counted_and_reraised_witness :
  build_resume quiet
    (Suspended (content_block_start 0) (Source [] None) initial_response)
    (Throw (Exn "StopIteration" true)) =
  (Finished, Raised (Exn "RuntimeError" true),
   [CounterAdd ExceptionCounter 1 [(Key "error.type", VStr "StopIteration")]]).
Proof.
  apply (X21_thrown_exception_is_counted_and_reraised quiet
           (content_block_start 0) (Source [] None) initial_response
           (Exn "StopIteration" true) [(Key "error.type", VStr "StopIteration")]).
  - reflexivity.
  - reflexivity.
  - intros add Hadd. simpl in Hadd. by simplify_eq.
Defined.
